(** * convert_to_onnx.py: a shallow embedding and its specification

    The script [ml-service/convert_to_onnx.py] loads a pickled scikit-learn
    artifact, hands the estimator to [skl2onnx], writes the graph and a JSON
    configuration, then runs one dummy inference.  The pure helpers are
    embedded as functions, the script body as a computation in a small state
    and exception monad over a file map and an event trace.

    Conventions of the embedding:
    - a Python [str] whose code points are all below 256 is a [string], one
      character for each code point; the column names, keys and paths of a
      run are such strings;
    - a Python [dict] is an association list in insertion order;
    - a Python [float] is a [spec_float] (IEEE 754 datum);
    - the third-party calls ([convert_sklearn], [onnxruntime], [os.makedirs],
      [open]) are fields of an environment record [Env]. *)

From Stdlib Require Import ZArith Ascii String Floats.SpecFloat.
From stdpp Require Import gmap strings list fin_maps pretty.

Local Open Scope string_scope.
Local Open Scope list_scope.
#[local] Arguments String.append !_ _ / : simpl nomatch.

(** ** Python string methods *)

Module Str.

(** [s.startswith(p)] *)
Fixpoint startswith (s p : string) : bool :=
  match p with
  | EmptyString => true
  | String a p' =>
      match s with
      | EmptyString => false
      | String b s' => if decide (a = b) then startswith s' p' else false
      end
  end.

(** one character of [str.lower]: the upper-case letters below code point
    256 are A-Z, U+00C0-U+00D6 and U+00D8-U+00DE, and each of them has its
    lower-case letter 32 places further *)
Definition lower_char (c : ascii) : ascii :=
  let n := nat_of_ascii c in
  if (((65 <=? n) && (n <=? 90)) || ((192 <=? n) && (n <=? 214)) ||
      ((216 <=? n) && (n <=? 222)))%nat
  then ascii_of_nat (n + 32) else c.

(** [s.lower()] *)
Fixpoint lower (s : string) : string :=
  match s with
  | EmptyString => EmptyString
  | String c s' => String (lower_char c) (lower s')
  end.

(** [sub in s] *)
Fixpoint contains (sub s : string) : bool :=
  startswith s sub ||
  match s with
  | EmptyString => false
  | String _ s' => contains sub s'
  end.

(** [s[n:]] *)
Fixpoint drop (n : nat) (s : string) : string :=
  match n, s with
  | S k, String _ s' => drop k s'
  | _, _ => s
  end.

(** The left-to-right scan of [s.replace(old, new)] for a non-empty [old]:
    [skip] counts the characters of a match that are still to be passed
    over. *)
Fixpoint replace_go (old new : string) (skip : nat) (s : string) : string :=
  match s with
  | EmptyString => EmptyString
  | String c s' =>
      match skip with
      | S k => replace_go old new k s'
      | O =>
          if startswith s old
          then new +:+ replace_go old new (String.length old - 1) s'
          else String c (replace_go old new 0 s')
      end
  end.

(** [s.replace("", new)] puts [new] before every character and at the end *)
Fixpoint intersperse (new s : string) : string :=
  match s with
  | EmptyString => new
  | String c s' => new +:+ String c (intersperse new s')
  end.

(** [s.replace(old, new)]: every non-overlapping occurrence, leftmost first *)
Definition replace (s old new : string) : string :=
  match old with
  | EmptyString => intersperse new s
  | _ => replace_go old new 0 s
  end.

(** The first occurrence of [sep] in [s]: what stands before and after it. *)
Fixpoint partition (s sep : string) : option (string * string) :=
  if startswith s sep then Some (EmptyString, drop (String.length sep) s)
  else
    match s with
    | EmptyString => None
    | String c s' =>
        match partition s' sep with
        | Some (a, b) => Some (String c a, b)
        | None => None
        end
    end.

(** [s.split(sep, 1)] for a non-empty [sep] *)
Definition split1 (s sep : string) : list string :=
  match partition s sep with
  | Some (a, b) => [a; b]
  | None => [s]
  end.

(** [s] occurs inside [t] *)
Definition Substring (s t : string) : Prop :=
  exists pre post, t = pre +:+ s +:+ post.

End Str.

(** ** Python dictionaries, in insertion order *)

Section Dict.
Context {K V : Type} `{EqDecision K}.

(** [d.get(k)] *)
Fixpoint dict_get (k : K) (d : list (K * V)) : option V :=
  match d with
  | [] => None
  | (k', v) :: d' => if decide (k = k') then Some v else dict_get k d'
  end.

(** [d[k] = v]: an existing key keeps its place, a new one goes last *)
Fixpoint dict_set (k : K) (v : V) (d : list (K * V)) : list (K * V) :=
  match d with
  | [] => [(k, v)]
  | (k', v') :: d' =>
      if decide (k = k') then (k', v) :: d' else (k', v') :: dict_set k v d'
  end.

(** [k in d] *)
Definition dict_mem (k : K) (d : list (K * V)) : bool :=
  match dict_get k d with Some _ => true | None => false end.

Definition dict_keys (d : list (K * V)) : list K := d.*1.
End Dict.

Abbreviation dict K V := (list (K * V)) (only parsing).

(** ** The encoding description ([generate_encoding_info]) *)

Record HasFeature := mkHasFeature { column : string; tag : string }.

Record Encoding := mkEncoding {
  has_features : list HasFeature;
  categorical_features : dict string (dict string string)
}.

(** One turn of the [for col in feature_columns] loop. *)
Definition encoding_step (encoding : Encoding) (col : string) : Encoding :=
  if Str.startswith col "has_" then
    let tag_name := Str.replace col "has_" "" in
    {| has_features :=
         has_features encoding
           ++ [ {| column := col; tag := "tags." +:+ tag_name |} ];
       categorical_features := categorical_features encoding |}
  else
    match Str.split1 col "_" with
    | [tag_name; value] =>
        let cats := categorical_features encoding in
        let cats :=
          if negb (dict_mem tag_name cats) then dict_set tag_name [] cats
          else cats in
        let inner := default [] (dict_get tag_name cats) in
        {| has_features := has_features encoding;
           categorical_features :=
             dict_set tag_name (dict_set value col inner) cats |}
    | _ => encoding
    end.

Definition generate_encoding_info
    (useful_features feature_columns : list string) : Encoding :=
  fold_left encoding_step feature_columns
    {| has_features := []; categorical_features := [] |}.

(** ** Python numbers *)

(** The [float] literals of the script, as the binary64 data they denote. *)
Definition float_0_15 : spec_float := S754_finite false 5404319552844595 (-55).
Definition float_0_12 : spec_float := S754_finite false 8646911284551352 (-56).
Definition float_0_08 : spec_float := S754_finite false 5764607523034235 (-56).
Definition float_0_05 : spec_float := S754_finite false 7205759403792794 (-57).
Definition float_0_01 : spec_float := S754_finite false 5764607523034235 (-59).
Definition float_zero : spec_float := S754_zero false.

(** [a > b] on floats; a comparison with NaN is false *)
Definition float_gt (a b : spec_float) : bool := SFltb b a.

(** A strictly positive float: sign bit clear, neither zero nor NaN. *)
Definition float_pos (x : spec_float) : Prop :=
  match x with
  | S754_infinity false | S754_finite false _ _ => True
  | _ => False
  end.

(** The datum [S754_finite false m e] is the binary64 number nearest to
    [num / den]. *)
Definition nearest_binary64 (x : spec_float) (num den : Z) : Prop :=
  valid_binary 53 1024 x = true /\
  match x with
  | S754_finite false m e =>
      (2 * Z.abs (Z.pos m * den - num * 2 ^ (- e)) <= den)%Z
  | _ => False
  end.

(** [int(k)] for a key of the stored class mapping.  A [str] key is stripped
    of white space and read as an optional sign and decimal digits, where
    single underscores may separate digits; a key of more than 4300 digits
    is refused ([sys.int_max_str_digits]). *)
Inductive MapKey := KInt (z : Z) | KStr (s : string).

Module PyInt.
(** The white space that [int] skips: tab to carriage return and the space,
    and below code point 256 also U+0085 and U+00A0. *)
Definition is_space (c : ascii) : bool :=
  let n := nat_of_ascii c in
  (((9 <=? n) && (n <=? 13)) || (n =? 32) || (n =? 133) || (n =? 160))%nat.

Fixpoint lstrip (s : string) : string :=
  match s with
  | String c s' => if is_space c then lstrip s' else s
  | EmptyString => EmptyString
  end.

Fixpoint rstrip (s : string) : string :=
  match s with
  | EmptyString => EmptyString
  | String c s' =>
      match rstrip s' with
      | EmptyString => if is_space c then EmptyString else String c EmptyString
      | r => String c r
      end
  end.

Definition digit_val (c : ascii) : option Z :=
  let n := nat_of_ascii c in
  if ((48 <=? n) && (n <=? 57))%nat then Some (Z.of_nat (n - 48)) else None.

Fixpoint digits (acc : Z) (after_digit : bool) (s : string) : option Z :=
  match s with
  | EmptyString => if after_digit then Some acc else None
  | String c s' =>
      if decide (c = "_"%char) then
        if after_digit then digits acc false s' else None
      else
        match digit_val c with
        | Some d => digits (acc * 10 + d) true s'
        | None => None
        end
  end.

(** The number of digits of a literal, underscores left out. *)
Fixpoint count_digits (s : string) : nat :=
  match s with
  | EmptyString => 0
  | String c s' =>
      if decide (c = "_"%char) then count_digits s' else S (count_digits s')
  end.

Definition max_str_digits : nat := 4300.

(** The digits after the sign. *)
Definition magnitude (r : string) : option Z :=
  if (max_str_digits <? count_digits r)%nat then None else digits 0 false r.

Definition of_string (s : string) : option Z :=
  match rstrip (lstrip s) with
  | String "+" r => magnitude r
  | String "-" r => Z.opp <$> magnitude r
  | r => magnitude r
  end.
End PyInt.

(** ** POSIX paths ([os.path]) *)

Module Path.
Fixpoint ends_with_slash (s : string) : bool :=
  match s with
  | EmptyString => false
  | String c EmptyString => bool_decide (c = "/"%char)
  | String _ s' => ends_with_slash s'
  end.

(** [os.path.join(a, b)] *)
Definition join (a b : string) : string :=
  if Str.startswith b "/" then b
  else if bool_decide (a = "") || ends_with_slash a then a +:+ b
  else a +:+ "/" +:+ b.

(** [os.path.join(a, *ps)] *)
Definition join_all (a : string) (ps : list string) : string :=
  fold_left join ps a.

(** [p[:p.rfind('/') + 1]] *)
Fixpoint head (p : string) : string :=
  match p with
  | EmptyString => EmptyString
  | String c p' =>
      if Str.contains "/" p' then String c (head p')
      else if decide (c = "/"%char) then "/" else EmptyString
  end.

Fixpoint all_slashes (s : string) : bool :=
  match s with
  | EmptyString => true
  | String c s' => bool_decide (c = "/"%char) && all_slashes s'
  end.

Fixpoint rstrip_slash (s : string) : string :=
  match s with
  | EmptyString => EmptyString
  | String c s' =>
      match rstrip_slash s' with
      | EmptyString =>
          if decide (c = "/"%char) then EmptyString else String c EmptyString
      | r => String c r
      end
  end.

(** [os.path.dirname(p)] *)
Definition dirname (p : string) : string :=
  let h := head p in
  if negb (bool_decide (h = "")) && negb (all_slashes h)
  then rstrip_slash h else h.
End Path.

(** ** The data of a run *)

(** The trained estimator: its pickled body and, for the estimator types
    that have one, the attribute [feature_importances_]. *)
Record Estimator := mkEstimator {
  est_body : string;
  feature_importances_ : option (list spec_float)
}.

(** The unpickled artifact, a [dict] with string keys: the five keys that
    [main] reads with [model_data[...]] are fields, the two it reads with
    [model_data.get] may be absent. *)
Record ModelData := mkModelData {
  md_model : Estimator;
  md_model_name : string;
  md_feature_columns : list string;
  md_useful_features : list string;
  md_metrics : dict string spec_float;
  md_n_classes : option Z;
  md_class_mapping : option (dict MapKey string)
}.

(** [skl2onnx] tensor types: [FloatTensorType(shape)] and its siblings. *)
Inductive ElemType := Float32 | Float64 | Int64.

Record TensorType := mkTensorType {
  elem_type : ElemType;
  shape : list (option nat)   (* [None] is an unbounded dimension *)
}.

Definition FloatTensorType (shape : list (option nat)) : TensorType :=
  {| elem_type := Float32; shape := shape |}.

#[export] Instance spec_float_eq_dec : EqDecision spec_float.
Proof. solve_decision. Defined.

#[export] Instance Estimator_eq_dec : EqDecision Estimator.
Proof. solve_decision. Defined.

(** The key [id(model)] of the [options] dictionary. *)
Inductive OptionKey := IdOf (model : Estimator).

#[export] Instance OptionKey_eq_dec : EqDecision OptionKey.
Proof. solve_decision. Defined.

(** The arguments of one [convert_sklearn] call; [target_opset = None] is
    the library default. *)
Record ConvertArgs := mkConvertArgs {
  initial_types : list (string * TensorType);
  target_opset : option Z;
  options : list (OptionKey * list (string * bool))
}.

(** What a graph output carries: a tensor, or the sequence of maps that the
    ZipMap operator produces. *)
Inductive OutputKind := LabelTensor | ProbabilityTensor | SequenceOfMaps.

Record OnnxModel := mkOnnxModel {
  onnx_opset : Z;
  onnx_inputs : list (string * TensorType);
  onnx_outputs : list (string * OutputKind);
  onnx_body : string
}.

Record Config := mkConfig {
  cfg_model_name : string;
  cfg_n_classes : Z;
  cfg_feature_columns : list string;
  cfg_useful_features : list string;
  cfg_metrics : dict string spec_float;
  cfg_input_name : string;
  cfg_output_names : list string;
  cfg_labels : list string;
  cfg_class_mapping : dict Z string;
  cfg_encoding_info : Encoding;
  cfg_feature_importances : dict string spec_float
}.

(** A file holds a pickled artifact, a serialized graph, a JSON
    configuration, or something else. *)
Inductive FileContent :=
| FPickle (md : ModelData)
| FOnnx (m : OnnxModel)
| FJson (c : Config)
| FRaw (bytes : string).

(** The exceptions of a run; all of them are subclasses of [Exception]. *)
Inductive Exn :=
| FileNotFoundError (path : string)
| UnpicklingError (path : string)
| ValueError (what : string)
| IndexError
| ImportError (module : string)
| OSError (path : string)
| ConversionError (what : string)
| RuntimeError (what : string).

(** A dense tensor of floats, and the values an inference returns. *)
Record Tensor := mkTensor {
  t_elem : ElemType;
  t_shape : list nat;
  t_data : list spec_float
}.

Inductive OrtValue :=
| OrtLabels (l : list Z)
| OrtTensor (t : Tensor)
| OrtMaps (l : list (dict Z spec_float)).

Record Session := mkSession {
  get_inputs : list string;     (* the names of the graph inputs *)
  sess_graph : FileContent
}.

(** The module [onnxruntime], when it is installed. *)
Record OrtModule := mkOrtModule {
  InferenceSession : FileContent -> Exn + Session;
  session_run : Session -> dict string Tensor -> Exn + list OrtValue
}.

(** What the run does not decide itself.  [open(p, 'w')] may fail, and then
    the file is as it was; once the file is open, and so truncated, the
    serialization or the write may fail, and then the file holds the bytes
    that had reached it. *)
Record Env := mkEnv {
  convert_sklearn : Estimator -> ConvertArgs -> Exn + OnnxModel;
  makedirs_error : string -> option Exn;   (* [os.makedirs(p, exist_ok=True)] *)
  open_error : string -> option Exn;       (* [open(p, 'w')] *)
  write_error : string -> option (Exn * string);
                                           (* the body of the [with open] *)
  onnxruntime : option OrtModule           (* [None]: not installed *)
}.

(** The lines printed. *)
Inductive Msg :=
| MLoading
| MModelPath (p : string)
| MModelType (name : string)
| MNumClasses (n : Z)
| MClassMapping (m : dict Z string)
| MNumFeatures (n : nat)
| MMetrics (m : dict string spec_float)
| MConverting
| MOnnxSaved (p : string)
| MExtracted (n : nat)
| MComputing
| MAssigned (n : nat)
| MImportanceWarning (e : Exn)
| MConfigSaved (p : string)
| MTesting
| MTestOk
| MPrediction (v : OrtValue)
| MProbabilities (v : OrtValue)
| MNoRuntime
| MTestError (e : Exn)
| MDone.

Inductive Event :=
| EPrint (m : Msg)
| ELoad (p : string)
| EConvert (model : Estimator) (args : ConvertArgs)
| EMakedirs (p : string)
| EWrite (p : string) (c : FileContent)
| EWriteFailed (p : string) (partial : string)
| ESession (p : string)
| ERun (feeds : dict string Tensor).

(** ** The monad of the script: files, a trace, and exceptions *)

Record State := mkState {
  files : gmap string FileContent;
  trace : list Event
}.

Definition M (A : Type) : Type := State -> (Exn + A) * State.

#[export] Instance M_ret : MRet M := fun A x s => (inr x, s).

#[export] Instance M_bind : MBind M := fun A B f m s =>
  match m s with
  | (inr x, s') => f x s'
  | (inl e, s') => (inl e, s')
  end.

Definition raise {A} (e : Exn) : M A := fun s => (inl e, s).

Definition lift {A} (r : Exn + A) : M A := fun s => (r, s).

Definition emit (ev : Event) : M unit := fun s =>
  (inr tt, {| files := files s; trace := trace s ++ [ev] |}).

Definition print (m : Msg) : M unit := emit (EPrint m).

(** [try: body except ...: handler]: a handler of [None] lets the exception
    pass. *)
Definition try_except {A} (body : M A) (handler : Exn -> option (M A)) : M A :=
  fun s =>
    match body s with
    | (inl e, s') =>
        match handler e with
        | Some h => h s'
        | None => (inl e, s')
        end
    | r => r
    end.

(** [l[i]] *)
Definition index {A} (l : list A) (i : nat) : M A :=
  match l !! i with
  | Some x => mret x
  | None => raise IndexError
  end.

(** [os.path.exists(p)] *)
Definition path_exists (fs : gmap string FileContent) (p : string) : bool :=
  bool_decide (is_Some (fs !! p)).

(** [joblib.load(p)] *)
Definition joblib_load (p : string) : M ModelData := fun s =>
  let s' := {| files := files s; trace := trace s ++ [ELoad p] |} in
  match files s !! p with
  | None => (inl (FileNotFoundError p), s')
  | Some (FPickle md) => (inr md, s')
  | Some _ => (inl (UnpicklingError p), s')
  end.

(** [os.makedirs(p, exist_ok=True)] *)
Definition makedirs (env : Env) (p : string) : M unit :=
  emit (EMakedirs p);;
  match makedirs_error env p with
  | Some e => raise e
  | None => mret tt
  end.

(** [with open(p, 'w') as f: f.write(c)], and the same with [json.dump]:
    the file is truncated when it is opened, before [c] is serialized. *)
Definition write_file (env : Env) (p : string) (c : FileContent) : M unit :=
  fun s =>
    match open_error env p with
    | Some e => (inl e, s)
    | None =>
        match write_error env p with
        | Some (e, partial) =>
            (inl e, {| files := <[p := FRaw partial]> (files s);
                       trace := trace s ++ [EWriteFailed p partial] |})
        | None =>
            (inr tt, {| files := <[p := c]> (files s);
                        trace := trace s ++ [EWrite p c] |})
        end
    end.

(** [convert_sklearn(model, initial_types=..., target_opset=..., options=...)]:
    the call itself is what the trace records. *)
Definition call_convert_sklearn (env : Env) (model : Estimator)
    (args : ConvertArgs) : M OnnxModel :=
  fun s =>
    (convert_sklearn env model args,
     {| files := files s; trace := trace s ++ [EConvert model args] |}).

(** [import onnxruntime as ort] *)
Definition import_onnxruntime (env : Env) : M OrtModule :=
  match onnxruntime env with
  | Some ort => mret ort
  | None => raise (ImportError "onnxruntime")
  end.

(** [ort.InferenceSession(p)] *)
Definition inference_session (ort : OrtModule) (p : string) : M Session :=
  fun s =>
    let s' := {| files := files s; trace := trace s ++ [ESession p] |} in
    match files s !! p with
    | Some c => (InferenceSession ort c, s')
    | None => (inl (FileNotFoundError p), s')
    end.

(** ** The module-level paths *)

Section Paths.
Variable PROJECT_ROOT : string.

Definition candidate_paths : list string :=
  [ Path.join PROJECT_ROOT "accessibility_model_geographic.joblib";
    Path.join PROJECT_ROOT "accessibility_model_worldwide.joblib";
    Path.join PROJECT_ROOT "accessibility_model_3class_best_overall.joblib" ].

(** The three assignments to [MODEL_PATH], read against the files [fs]. *)
Definition MODEL_PATH (fs : gmap string FileContent) : string :=
  let MODEL_PATH :=
    Path.join PROJECT_ROOT "accessibility_model_geographic.joblib" in
  let MODEL_PATH :=
    if negb (path_exists fs MODEL_PATH)
    then Path.join PROJECT_ROOT "accessibility_model_worldwide.joblib"
    else MODEL_PATH in
  let MODEL_PATH :=
    if negb (path_exists fs MODEL_PATH)
    then Path.join PROJECT_ROOT "accessibility_model_3class_best_overall.joblib"
    else MODEL_PATH in
  MODEL_PATH.

Definition ONNX_OUTPUT_PATH : string :=
  Path.join_all PROJECT_ROOT ["public"; "models"; "accessibility_model.onnx"].

Definition CONFIG_OUTPUT_PATH : string :=
  Path.join_all PROJECT_ROOT
    ["app"; "api"; "accessibility-predict"; "model_config.json"].
End Paths.

(** ** The steps of [main] *)

(** [{int(k): v for k, v in class_mapping.items()}] *)
Definition py_int (k : MapKey) : Exn + Z :=
  match k with
  | KInt z => inr z
  | KStr s =>
      match PyInt.of_string s with
      | Some z => inr z
      | None => inl (ValueError s)
      end
  end.

Fixpoint int_keys (items : dict MapKey string) (acc : dict Z string)
  : Exn + dict Z string :=
  match items with
  | [] => inr acc
  | (k, v) :: rest =>
      match py_int k with
      | inl e => inl e
      | inr z => int_keys rest (dict_set z v acc)
      end
  end.

Definition default_class_mapping : dict MapKey string :=
  [(KInt 0, "not_accessible"); (KInt 1, "accessible")].

(** The [for idx, importance in enumerate(importances)] loop. *)
Fixpoint native_importances (feature_columns : list string) (idx : nat)
    (importances : list spec_float) (feature_importances : dict string spec_float)
  : Exn + dict string spec_float :=
  match importances with
  | [] => inr feature_importances
  | importance :: rest =>
      if float_gt importance float_zero then
        match feature_columns !! idx with
        | Some col =>
            native_importances feature_columns (S idx) rest
              (dict_set col importance feature_importances)
        | None => inl IndexError
        end
      else native_importances feature_columns (S idx) rest feature_importances
  end.

Definition accessibility_positive : list string :=
  [ "automatic_door"; "toilets_wheelchair"; "ramp"; "elevator";
    "tactile_paving"; "hearing_loop"; "wheelchair"; "accessible"; "ground";
    "entrance"; "door" ].

Definition accessibility_negative : list string :=
  [ "stairs"; "step_count"; "barrier"; "kerb"; "upper"; "basement" ].

Definition place_type : list string :=
  [ "amenity"; "shop"; "tourism"; "healthcare"; "building"; "leisure" ].

(** [any(w in s for w in words)] *)
Definition any_in (words : list string) (s : string) : bool :=
  existsb (fun w => Str.contains w s) words.

(** The importance the fallback assigns to one column. *)
Definition heuristic_importance (col : string) : spec_float :=
  let col_lower := Str.lower col in
  if any_in accessibility_positive col_lower then float_0_15
  else if any_in accessibility_negative col_lower then float_0_12
  else if any_in place_type col_lower then float_0_08
  else if Str.startswith col_lower "has_" then float_0_05
  else float_0_01.

(** One turn of the [for idx, col in enumerate(feature_columns)] loop. *)
Definition heuristic_step (feature_importances : dict string spec_float)
    (col : string) : dict string spec_float :=
  let importance := heuristic_importance col in
  if float_gt importance float_0_01
  then dict_set col importance feature_importances
  else feature_importances.

Definition heuristic_importances (feature_columns : list string)
  : dict string spec_float :=
  fold_left heuristic_step feature_columns [].

(** The [labels] list. *)
Definition make_labels (n_classes : Z) (class_mapping : dict Z string)
  : list string :=
  if (n_classes =? 3)%Z
  then (fun i : Z => default ("class_" +:+ pretty i) (dict_get i class_mapping))
         <$> [0; 1; 2]%Z
  else ["not_accessible"; "accessible"].

(** [np.zeros((1, n), dtype=np.float32)] *)
Definition zeros_1 (n : nat) : Tensor :=
  {| t_elem := Float32; t_shape := [1; n]; t_data := replicate n float_zero |}.

(** [options.get(id(model), {}).get('zipmap')] *)
Definition zipmap_option (model : Estimator) (args : ConvertArgs)
  : option bool :=
  dict_get (IdOf model) (options args) ≫= dict_get "zipmap".

(** The arguments [main] gives to [convert_sklearn]. *)
Definition conversion_args (model : Estimator) (feature_columns : list string)
  : ConvertArgs :=
  let initial_type :=
    [("float_input", FloatTensorType [None; Some (length feature_columns)])] in
  {| initial_types := initial_type;
     target_opset := Some 12%Z;
     options := [(IdOf model, [("zipmap", false)])] |}.

(** ** [main] *)

Section Main.
Variable env : Env.
Variable PROJECT_ROOT : string.
(** the value of the global [MODEL_PATH] when [main] starts *)
Variable model_path : string.

(** The body of the last [try]. *)
Definition test_inference (feature_columns : list string) : M unit :=
  ort ← import_onnxruntime env;
  session ← inference_session ort (ONNX_OUTPUT_PATH PROJECT_ROOT);
  input_name ← index (get_inputs session) 0;
  let dummy_input := zeros_1 (length feature_columns) in
  emit (ERun [(input_name, dummy_input)]);;
  results ← lift (session_run ort session [(input_name, dummy_input)]);
  print MTestOk;;
  prediction ← index results 0;
  print (MPrediction prediction);;
  probabilities ← index results 1;
  print (MProbabilities probabilities).

(** The two [except] clauses of the last [try]. *)
Definition test_handler (e : Exn) : option (M unit) :=
  match e with
  | ImportError _ => Some (print MNoRuntime)
  | e => Some (print (MTestError e))
  end.

(** The [if hasattr(model, 'feature_importances_')] statement.  With column
    names that are strings nothing in the body of the inner [try] raises, so
    its handler, which prints a warning, is never entered. *)
Definition extract_importances (model : Estimator)
    (feature_columns : list string) : M (dict string spec_float) :=
  match feature_importances_ model with
  | Some importances =>
      feature_importances ←
        lift (native_importances feature_columns 0 importances []);
      print (MExtracted (length feature_importances));;
      mret feature_importances
  | None =>
      try_except
        (print MComputing;;
         let feature_importances := heuristic_importances feature_columns in
         print (MAssigned (length feature_importances));;
         mret feature_importances)
        (fun e => Some (print (MImportanceWarning e);; mret []))
  end.

Definition main : M unit :=
  print MLoading;;
  print (MModelPath model_path);;
  model_data ← joblib_load model_path;
  let model := md_model model_data in
  let model_name := md_model_name model_data in
  let feature_columns := md_feature_columns model_data in
  let useful_features := md_useful_features model_data in
  let metrics := md_metrics model_data in
  let n_classes := default 2%Z (md_n_classes model_data) in
  let class_mapping :=
    default default_class_mapping (md_class_mapping model_data) in
  class_mapping ← lift (int_keys class_mapping []);
  print (MModelType model_name);;
  print (MNumClasses n_classes);;
  print (MClassMapping class_mapping);;
  print (MNumFeatures (length feature_columns));;
  print (MMetrics metrics);;
  print MConverting;;
  onnx_model ←
    call_convert_sklearn env model (conversion_args model feature_columns);
  makedirs env (Path.dirname (ONNX_OUTPUT_PATH PROJECT_ROOT));;
  makedirs env (Path.dirname (CONFIG_OUTPUT_PATH PROJECT_ROOT));;
  write_file env (ONNX_OUTPUT_PATH PROJECT_ROOT) (FOnnx onnx_model);;
  print (MOnnxSaved (ONNX_OUTPUT_PATH PROJECT_ROOT));;
  feature_importances ← extract_importances model feature_columns;
  let labels := make_labels n_classes class_mapping in
  let config :=
    {| cfg_model_name := model_name;
       cfg_n_classes := n_classes;
       cfg_feature_columns := feature_columns;
       cfg_useful_features := useful_features;
       cfg_metrics := metrics;
       cfg_input_name := "float_input";
       cfg_output_names := ["output_label"; "output_probability"];
       cfg_labels := labels;
       cfg_class_mapping := class_mapping;
       cfg_encoding_info :=
         generate_encoding_info useful_features feature_columns;
       cfg_feature_importances := feature_importances |} in
  write_file env (CONFIG_OUTPUT_PATH PROJECT_ROOT) (FJson config);;
  print (MConfigSaved (CONFIG_OUTPUT_PATH PROJECT_ROOT));;
  print MTesting;;
  try_except (test_inference feature_columns) test_handler;;
  print MDone.
End Main.

(** The whole script: the module-level statements, then [main()]. *)
Definition script (env : Env) (PROJECT_ROOT : string) : M unit := fun s =>
  main env PROJECT_ROOT (MODEL_PATH PROJECT_ROOT (files s)) s.

(** ** A concrete environment and concrete artifacts *)

Module Sample.
Definition float_0_2 : spec_float := S754_finite false 7205759403792794 (-55).

(** A converter that follows its arguments: the declared inputs, the opset
    asked for (or a later default), and a probability tensor exactly when
    [zipmap] is switched off for the estimator. *)
Definition converter (model : Estimator) (args : ConvertArgs)
  : Exn + OnnxModel :=
  inr {| onnx_opset := default 21%Z (target_opset args);
         onnx_inputs := initial_types args;
         onnx_outputs :=
           [ ("output_label", LabelTensor);
             ("output_probability",
              match zipmap_option model args with
              | Some false => ProbabilityTensor
              | _ => SequenceOfMaps
              end) ];
         onnx_body := est_body model |}.

(** An inference runtime whose sessions always fail to run. *)
Definition broken_runtime : OrtModule :=
  {| InferenceSession := fun c =>
       inr {| get_inputs := ["float_input"]; sess_graph := c |};
     session_run := fun _ _ => inl (RuntimeError "invalid dimensions") |}.

(** An inference runtime that answers class 0 with certainty. *)
Definition runtime : OrtModule :=
  {| InferenceSession := fun c =>
       inr {| get_inputs := ["float_input"]; sess_graph := c |};
     session_run := fun _ _ =>
       inr [ OrtLabels [0%Z];
             OrtTensor {| t_elem := Float32; t_shape := [1; 2];
                          t_data := [float_zero; float_zero] |} ] |}.

Definition env (ort : option OrtModule) : Env :=
  {| convert_sklearn := converter;
     makedirs_error := fun _ => None;
     open_error := fun _ => None;
     write_error := fun _ => None;
     onnxruntime := ort |}.

Definition forest : Estimator :=
  {| est_body := "RandomForestClassifier";
     feature_importances_ := Some [float_0_2; float_zero; float_0_15] |}.

Definition boosting : Estimator :=
  {| est_body := "HistGradientBoostingClassifier";
     feature_importances_ := None |}.

Definition columns : list string :=
  ["has_ramp"; "stairs_present"; "random_flag_7"].

Definition artifact (model : Estimator) (n_classes : option Z)
    (class_mapping : option (dict MapKey string)) : ModelData :=
  {| md_model := model;
     md_model_name := est_body model;
     md_feature_columns := columns;
     md_useful_features := ["ramp"; "stairs"];
     md_metrics := [("f1", float_0_2)];
     md_n_classes := n_classes;
     md_class_mapping := class_mapping |}.

Definition three_classes : dict MapKey string :=
  [(KInt 0, "not_accessible"); (KInt 1, "limited"); (KInt 2, "accessible")].

Definition root : string := "/srv/app".

Definition disk (md : ModelData) : gmap string FileContent :=
  {[ Path.join root "accessibility_model_geographic.joblib" := FPickle md ]}.

Definition start (md : ModelData) : State :=
  {| files := disk md; trace := [] |}.

(** The graph that [converter] returns for [main]'s call. *)
Definition graph (model : Estimator) : OnnxModel :=
  {| onnx_opset := 12;
     onnx_inputs := [("float_input", FloatTensorType [None; Some 3])];
     onnx_outputs :=
       [("output_label", LabelTensor);
        ("output_probability", ProbabilityTensor)];
     onnx_body := est_body model |}.

(** A 3-class forest, a 2-class boosting model with labels of its own, and
    a boosting model that leaves class count and mapping to the defaults. *)
Definition forest_artifact : ModelData :=
  artifact forest (Some 3%Z) (Some three_classes).

Definition two_classes : dict MapKey string :=
  [(KInt 0, "inaccessible"); (KInt 1, "wheelchair_ok")].

Definition boosting_artifact : ModelData :=
  artifact boosting (Some 2%Z) (Some two_classes).

Definition plain_artifact : ModelData := artifact boosting None None.

(** Forests whose importance vector is longer, or shorter, than the three
    feature columns. *)
Definition overlong_forest : Estimator :=
  {| est_body := "RandomForestClassifier";
     feature_importances_ :=
       Some [float_zero; float_zero; float_zero; float_0_15] |}.

Definition short_forest : Estimator :=
  {| est_body := "RandomForestClassifier";
     feature_importances_ := Some [float_0_15] |}.

(** An inference runtime that returns the label only. *)
Definition terse_runtime : OrtModule :=
  {| InferenceSession := fun c =>
       inr {| get_inputs := ["float_input"]; sess_graph := c |};
     session_run := fun _ _ => inr [OrtLabels [0%Z]] |}.

(** An environment in which the directory of the configuration cannot be
    created. *)
Definition read_only_app : Env :=
  {| convert_sklearn := converter;
     makedirs_error := fun p =>
       if decide (p = "/srv/app/app/api/accessibility-predict")
       then Some (OSError p) else None;
     open_error := fun _ => None;
     write_error := fun _ => None;
     onnxruntime := None |}.

(** An environment whose disk is full once [failing] has been opened: the
    write fails and leaves [partial] in the file. *)
Definition full_disk (failing partial : string) : Env :=
  {| convert_sklearn := converter;
     makedirs_error := fun _ => None;
     open_error := fun _ => None;
     write_error := fun p =>
       if decide (p = failing) then Some (OSError p, partial) else None;
     onnxruntime := None |}.

(** A state in which the graph of the boosting model is written. *)
Definition with_graph : State :=
  {| files := {[ ONNX_OUTPUT_PATH root := FOnnx (graph boosting) ]};
     trace := [] |}.
End Sample.

(** ** Notions used by the statements *)

(** The column stored under [categorical_features[tag_name][value]]. *)
Definition categorical (encoding : Encoding) (tag_name value : string)
  : option string :=
  dict_get tag_name (categorical_features encoding) ≫= dict_get value.

(** A column that the encoding description mentions anywhere. *)
Definition mentions (encoding : Encoding) (col : string) : Prop :=
  (exists hf, hf ∈ has_features encoding /\ column hf = col) \/
  (exists tag_name value, categorical encoding tag_name value = Some col).

(** Index [i] is the last place where [name] has a strictly positive
    native importance, and that importance is [v]. *)
Definition last_positive (feature_columns : list string)
    (importances : list spec_float) (name : string) (i : nat) (v : spec_float)
  : Prop :=
  feature_columns !! i = Some name /\ importances !! i = Some v /\
  float_pos v /\
  forall j w, i < j -> feature_columns !! j = Some name ->
              importances !! j = Some w -> ~ float_pos w.

(** Case-insensitive substring match of a column against a vocabulary. *)
Definition matches (words : list string) (col : string) : Prop :=
  exists w, w ∈ words /\ Str.Substring w (Str.lower col).

(** The fallback as a list of rules, the first applicable one deciding:
    the entry of the importance map for a column, [None] when the column is
    left out. *)
Inductive heuristic_rule (col : string) : option spec_float -> Prop :=
| rule_positive :
    matches accessibility_positive col ->
    heuristic_rule col (Some float_0_15)
| rule_negative :
    ~ matches accessibility_positive col ->
    matches accessibility_negative col ->
    heuristic_rule col (Some float_0_12)
| rule_place_type :
    ~ matches accessibility_positive col ->
    ~ matches accessibility_negative col ->
    matches place_type col ->
    heuristic_rule col (Some float_0_08)
| rule_has_prefix :
    ~ matches accessibility_positive col ->
    ~ matches accessibility_negative col ->
    ~ matches place_type col ->
    (exists rest, Str.lower col = "has_" +:+ rest) ->
    heuristic_rule col (Some float_0_05)
| rule_base :
    ~ matches accessibility_positive col ->
    ~ matches accessibility_negative col ->
    ~ matches place_type col ->
    ~ (exists rest, Str.lower col = "has_" +:+ rest) ->
    heuristic_rule col None.

(** One turn of the native loop, on a column and its importance. *)
Definition native_step (acc : dict string spec_float)
    (cv : string * spec_float) : dict string spec_float :=
  if float_gt cv.2 float_zero then dict_set cv.1 cv.2 acc else acc.

(** The conditions under which a run gets as far as the feature
    importances: the artifact is on disk, the keys of its class mapping are
    integers, the converter accepts the estimator, and the two output
    directories and files can be written, to the end. *)
Record Ready (env : Env) (root : string) (s : State) (md : ModelData)
    (class_mapping : dict Z string) (g : OnnxModel) : Prop := mkReady {
  ready_artifact :
    files s !! MODEL_PATH root (files s) = Some (FPickle md);
  ready_mapping :
    int_keys (default default_class_mapping (md_class_mapping md)) []
    = inr class_mapping;
  ready_convert :
    convert_sklearn env (md_model md)
      (conversion_args (md_model md) (md_feature_columns md)) = inr g;
  ready_onnx_dir :
    makedirs_error env (Path.dirname (ONNX_OUTPUT_PATH root)) = None;
  ready_config_dir :
    makedirs_error env (Path.dirname (CONFIG_OUTPUT_PATH root)) = None;
  ready_onnx_file : open_error env (ONNX_OUTPUT_PATH root) = None;
  ready_config_file : open_error env (CONFIG_OUTPUT_PATH root) = None;
  ready_onnx_write : write_error env (ONNX_OUTPUT_PATH root) = None;
  ready_config_write : write_error env (CONFIG_OUTPUT_PATH root) = None
}.

(** The outcome of the [if hasattr(...)] statement, without its messages. *)
Definition importances_of (model : Estimator) (feature_columns : list string)
  : Exn + dict string spec_float :=
  match feature_importances_ model with
  | Some importances => native_importances feature_columns 0 importances []
  | None => inr (heuristic_importances feature_columns)
  end.

(** The message that reports an exception of the test inference. *)
Definition report (e : Exn) : Msg :=
  match e with
  | ImportError _ => MNoRuntime
  | e => MTestError e
  end.

(** The [convert_sklearn] calls recorded in a trace. *)
Definition convert_calls (tr : list Event) : list (Estimator * ConvertArgs) :=
  omap (fun ev => match ev with
                  | EConvert model args => Some (model, args)
                  | _ => None
                  end) tr.

(** The files written, as recorded in a trace. *)
Definition writes (tr : list Event) : list string :=
  omap (fun ev => match ev with EWrite p _ => Some p | _ => None end) tr.

(** The same environment with another [onnxruntime]. *)
Definition with_runtime (env : Env) (ort : option OrtModule) : Env :=
  {| convert_sklearn := convert_sklearn env;
     makedirs_error := makedirs_error env;
     open_error := open_error env;
     write_error := write_error env;
     onnxruntime := ort |}.

(** The configuration that a run writes for the artifact [md], given the
    class mapping with integer keys and the feature importances. *)
Definition written_config (md : ModelData) (class_mapping : dict Z string)
    (feature_importances : dict string spec_float) : Config :=
  {| cfg_model_name := md_model_name md;
     cfg_n_classes := default 2%Z (md_n_classes md);
     cfg_feature_columns := md_feature_columns md;
     cfg_useful_features := md_useful_features md;
     cfg_metrics := md_metrics md;
     cfg_input_name := "float_input";
     cfg_output_names := ["output_label"; "output_probability"];
     cfg_labels := make_labels (default 2%Z (md_n_classes md)) class_mapping;
     cfg_class_mapping := class_mapping;
     cfg_encoding_info :=
       generate_encoding_info (md_useful_features md) (md_feature_columns md);
     cfg_feature_importances := feature_importances |}.

(** A computation whose events all satisfy [P]: it appends them to the
    trace and records nothing else. *)
Definition emits_only {A} (P : Event -> Prop) (m : M A) : Prop :=
  forall s, exists tr, trace (m s).2 = trace s ++ tr /\ Forall P tr.

(** A computation that leaves the files alone. *)
Definition keeps_files {A} (m : M A) : Prop :=
  forall s, files (m s).2 = files s.

(** The events of the test inference. *)
Definition test_event (ev : Event) : Prop :=
  match ev with
  | EPrint _ | ESession _ | ERun _ => True
  | _ => False
  end.

(** A computation that leaves the file at [p] alone. *)
Definition keeps_file {A} (p : string) (m : M A) : Prop :=
  forall s, files (m s).2 !! p = files s !! p.

(** The events that may follow a conversion that returned [g]: no further
    conversion, and a completed write to the graph path writes [g]. *)
Definition after_conversion_event (root : string) (g : OnnxModel)
    (ev : Event) : Prop :=
  match ev with
  | EConvert _ _ => False
  | EWrite p c => p = ONNX_OUTPUT_PATH root -> c = FOnnx g
  | _ => True
  end.

(** The documented effect of the [zipmap] option of [skl2onnx]: a conversion
    whose options hold [zipmap: False] for the estimator returns a graph
    whose outputs are the label and a probability tensor. *)
Definition honours_zipmap
    (convert : Estimator -> ConvertArgs -> Exn + OnnxModel) : Prop :=
  forall model args g,
    convert model args = inr g -> zipmap_option model args = Some false ->
    (onnx_outputs g).*2 = [LabelTensor; ProbabilityTensor].

(** The documented effect of [target_opset]: the graph has the opset asked
    for. *)
Definition honours_opset
    (convert : Estimator -> ConvertArgs -> Exn + OnnxModel) : Prop :=
  forall model args g v,
    convert model args = inr g -> target_opset args = Some v ->
    onnx_opset g = v.

(** Two outcomes that agree in the result and in the files. *)
Definition same_outcome {A} (r r' : (Exn + A) * State) : Prop :=
  r.1 = r'.1 /\ files r.2 = files r'.2.

(** The value of the last item of a stored class mapping whose key is the
    integer [z] once normalized. *)
Fixpoint last_with_key (z : Z) (items : dict MapKey string) : option string :=
  match items with
  | [] => None
  | (k, v) :: rest =>
      match last_with_key z rest with
      | Some w => Some w
      | None =>
          match py_int k with
          | inr z' => if decide (z' = z) then Some v else None
          | inl _ => None
          end
      end
  end.

(** The directory prefix that [os.path.join] puts before a relative name:
    the directory itself when it is empty or ends with a slash, and the
    directory followed by a slash otherwise. *)
Definition dir_prefix (a : string) : string :=
  if bool_decide (a = "") || Path.ends_with_slash a then a else a +:+ "/".

(** * Properties *)

(** ** String methods *)

Module StrFacts.
Import Str.

Lemma app_nil_r s : s +:+ "" = s.
Proof. induction s as [|c s IH]; simpl; [done | by rewrite IH]. Qed.

Lemma app_assoc s t u : (s +:+ t) +:+ u = s +:+ (t +:+ u).
Proof. induction s as [|c s IH]; simpl; [done | by rewrite IH]. Qed.

Lemma app_inv_head s t u : s +:+ t = s +:+ u -> t = u.
Proof. induction s as [|c s IH]; simpl; [done | intros [= H]; auto]. Qed.

Lemma startswith_nil s : startswith s "" = true.
Proof. by destruct s. Qed.

Lemma startswith_spec s p : startswith s p = true <-> exists r, s = p +:+ r.
Proof.
  revert s. induction p as [|a p IH]; intros s.
  - rewrite startswith_nil. split; [intros _; by exists s | done].
  - destruct s as [|b s]; simpl.
    + split; [done | intros [r [=]]].
    + destruct (decide (a = b)) as [->|Hne].
      * rewrite IH. split; intros [r Hr]; exists r; [by rewrite Hr | by injection Hr].
      * split; [done | intros [r [= ? _]]; congruence].
Qed.

Lemma startswith_app p r : startswith (p +:+ r) p = true.
Proof. apply startswith_spec. by exists r. Qed.

Lemma contains_spec sub s : contains sub s = true <-> Substring sub s.
Proof.
  unfold Substring. induction s as [|c s IH].
  - change (contains sub "") with (startswith "" sub || false).
    rewrite orb_false_r, startswith_spec. split.
    + intros [r Hr]. by exists "", r.
    + intros (pre & post & H). destruct pre; [by exists post | done].
  - change (contains sub (String c s))
      with (startswith (String c s) sub || contains sub s).
    rewrite orb_true_iff, startswith_spec, IH. split.
    + intros [[r Hr] | (pre & post & H)].
      * by exists "", r.
      * exists (String c pre), post. simpl. by rewrite H.
    + intros (pre & post & H). destruct pre as [|a pre].
      * left. by exists post.
      * right. injection H as _ H. by exists pre, post.
Qed.

Lemma contains_false sub s :
  contains sub s = false <-> ~ Substring sub s.
Proof. rewrite <- contains_spec. by destruct (contains sub s). Qed.

(** [partition] at a one-character separator finds the first occurrence. *)
Lemma partition_char_Some s c a b :
  partition s (String c "") = Some (a, b) <->
  s = a +:+ String c b /\ contains (String c "") a = false.
Proof.
  revert a. induction s as [|x s IH]; intros a.
  - simpl. split; [done | intros [H _]; by destruct a].
  - change (partition (String x s) (String c ""))
      with (if startswith (String x s) (String c "")
            then Some ("", drop 1 (String x s))
            else match partition s (String c "") with
                 | Some (a, b) => Some (String x a, b)
                 | None => None
                 end).
    simpl startswith. destruct (decide (c = x)) as [->|Hne].
    + rewrite startswith_nil. simpl. split.
      * intros [= <- <-]. done.
      * intros [H Hc]. destruct a as [|y a].
        -- simpl in H. by injection H as ->.
        -- simpl in H. injection H as -> _. simpl in Hc.
           destruct (decide (y = y)); [|done].
           by rewrite startswith_nil in Hc.
    + assert (Hx : forall a, contains (String c "") (String x a)
                              = contains (String c "") a).
      { intros a0. simpl. destruct (decide (c = x)); done. }
      destruct (partition s (String c "")) as [[a' b']|].
      * split.
        -- intros [= <- <-]. destruct (proj1 (IH a') eq_refl) as [-> Hc].
           by rewrite Hx.
        -- intros [H Hc]. destruct a as [|y a]; simpl in H.
           ++ injection H as ? _; congruence.
           ++ injection H as <- H. rewrite Hx in Hc.
              pose proof (proj2 (IH a) (conj H Hc)) as [= -> ->]. done.
      * split; [done|]. intros [H Hc]. destruct a as [|y a]; simpl in H.
        -- injection H as ? _; congruence.
        -- injection H as <- H. rewrite Hx in Hc.
           by pose proof (proj2 (IH a) (conj H Hc)).
Qed.

Lemma partition_char_None s c :
  partition s (String c "") = None <-> contains (String c "") s = false.
Proof.
  induction s as [|x s IH]; [done|].
  change (partition (String x s) (String c ""))
    with (if startswith (String x s) (String c "")
          then Some ("", drop 1 (String x s))
          else match partition s (String c "") with
               | Some (a, b) => Some (String x a, b)
               | None => None
               end).
  change (contains (String c "") (String x s))
    with (startswith (String x s) (String c "") || contains (String c "") s).
  destruct (startswith (String x s) (String c "")); [done|]. simpl.
  rewrite <- IH. by destruct (partition s (String c "")) as [[??]|].
Qed.

(** [s.split(sep, 1)] has two parts exactly when [sep] occurs, and then
    they are what stands before and after its first occurrence. *)
Lemma split1_char_two s c a b :
  split1 s (String c "") = [a; b] <->
  s = a +:+ String c b /\ ~ Substring (String c "") a.
Proof.
  unfold split1. rewrite <- contains_false, <- partition_char_Some.
  destruct (partition s (String c "")) as [[a' b']|];
    split; try done; [by intros [= -> ->] | by intros [= -> ->]].
Qed.

Lemma split1_char_one s c :
  ~ Substring (String c "") s -> split1 s (String c "") = [s].
Proof.
  intros H%contains_false%partition_char_None. unfold split1. by rewrite H.
Qed.
End StrFacts.

(** ** Dictionaries *)

Section DictFacts.
Context {K V : Type} `{EqDecision K}.
Implicit Types (k : K) (v : V) (d : list (K * V)).

Lemma dict_get_set k k' v d :
  dict_get k (dict_set k' v d) =
  if decide (k = k') then Some v else dict_get k d.
Proof.
  induction d as [|[k0 v0] d IH]; simpl.
  - by destruct (decide (k = k')).
  - destruct (decide (k' = k0)) as [->|Hne]; simpl.
    + by destruct (decide (k = k0)).
    + rewrite IH. destruct (decide (k = k0)) as [->|]; [|done].
      by destruct (decide (k0 = k')); [congruence|].
Qed.

Lemma dict_get_set_eq k v d : dict_get k (dict_set k v d) = Some v.
Proof. rewrite dict_get_set. by destruct (decide (k = k)). Qed.

Lemma dict_get_set_ne k k' v d :
  k <> k' -> dict_get k (dict_set k' v d) = dict_get k d.
Proof. intros. rewrite dict_get_set. by destruct (decide (k = k')). Qed.

Lemma dict_mem_get k d : dict_mem k d = true <-> is_Some (dict_get k d).
Proof.
  unfold dict_mem.
  destruct (dict_get k d); split; first [done | by eexists | by intros [? [=]]].
Qed.
End DictFacts.

(** ** The encoding description *)

Section EncodingFacts.
Import Str StrFacts.

Lemma step_has_feature encoding col :
  startswith col "has_" = true ->
  encoding_step encoding col =
  {| has_features :=
       has_features encoding
         ++ [{| column := col; tag := "tags." +:+ replace col "has_" "" |}];
     categorical_features := categorical_features encoding |}.
Proof. intros H. unfold encoding_step. by rewrite H. Qed.

Lemma step_skipped encoding col :
  startswith col "has_" = false -> ~ Substring "_" col ->
  encoding_step encoding col = encoding.
Proof.
  intros H Hu. unfold encoding_step. rewrite H.
  by rewrite (split1_char_one col "_" Hu).
Qed.

Lemma step_categorical encoding col tag_name value :
  startswith col "has_" = false ->
  split1 col "_" = [tag_name; value] ->
  has_features (encoding_step encoding col) = has_features encoding /\
  forall t v,
    categorical (encoding_step encoding col) t v =
    if decide (t = tag_name /\ v = value) then Some col
    else categorical encoding t v.
Proof.
  intros H Hs. unfold encoding_step. rewrite H, Hs. split; [done|].
  intros t v. unfold categorical; simpl.
  rewrite dict_get_set.
  destruct (decide (t = tag_name)) as [->|Ht]; simpl.
  - rewrite dict_get_set.
    destruct (decide (v = value)) as [->|Hv].
    + by rewrite decide_True.
    + rewrite decide_False by tauto.
      unfold dict_mem.
      destruct (dict_get tag_name (categorical_features encoding)) eqn:Hg;
        simpl.
      * by rewrite Hg.
      * by rewrite dict_get_set_eq.
  - rewrite decide_False by tauto.
    destruct (negb _); [|done]. by rewrite dict_get_set_ne.
Qed.

(** The three cases of one loop turn. *)
Lemma step_cases col :
  startswith col "has_" = true \/
  (startswith col "has_" = false /\
   exists tag_name value,
     split1 col "_" = [tag_name; value] /\
     col = tag_name +:+ "_" +:+ value /\ ~ Substring "_" tag_name) \/
  (startswith col "has_" = false /\ ~ Substring "_" col).
Proof.
  destruct (startswith col "has_"); [by left | right].
  destruct (contains "_" col) eqn:Hc.
  - left. split; [done|]. unfold split1.
    destruct (partition col "_") as [[a b]|] eqn:Hp.
    + exists a, b. split; [done|].
      apply partition_char_Some in Hp as [-> Hn].
      by apply contains_false in Hn.
    + apply partition_char_None in Hp. congruence.
  - right. split; [done|]. by apply contains_false.
Qed.

Lemma underscore_split_unique t v t' v' :
  t +:+ "_" +:+ v = t' +:+ "_" +:+ v' ->
  ~ Substring "_" t -> ~ Substring "_" t' -> t = t' /\ v = v'.
Proof.
  intros H Ht Ht'.
  assert (Hp : forall a b, ~ Substring "_" a ->
             partition (a +:+ "_" +:+ b) "_" = Some (a, b)).
  { intros a b Ha. apply partition_char_Some. split; [done|].
    by apply contains_false. }
  pose proof (Hp t v Ht) as H1. rewrite H, (Hp t' v' Ht') in H1.
  by injection H1 as -> ->.
Qed.
End EncodingFacts.

Section EncodingInfo.
Import Str StrFacts.

(** Once a categorical column is stored under its own (tag, value) pair, no
    later loop turn replaces it by another column. *)
Lemma step_keeps_roundtrip encoding c t v :
  ~ Substring "_" t ->
  categorical encoding t v = Some (t +:+ "_" +:+ v) ->
  categorical (encoding_step encoding c) t v = Some (t +:+ "_" +:+ v).
Proof.
  intros Ht Hold.
  destruct (step_cases c) as [Hh | [(Hh & t' & v' & Hs & Hc & Ht') | [Hh Hu]]].
  - by rewrite step_has_feature.
  - destruct (step_categorical encoding c t' v' Hh Hs) as [_ ->].
    destruct (decide (t = t' /\ v = v')) as [[-> ->]|]; [by rewrite Hc | done].
  - by rewrite step_skipped.
Qed.

Lemma fold_roundtrip cols encoding t v :
  ~ Substring "_" t ->
  startswith (t +:+ "_" +:+ v) "has_" = false ->
  t +:+ "_" +:+ v ∈ cols \/
    categorical encoding t v = Some (t +:+ "_" +:+ v) ->
  categorical (fold_left encoding_step cols encoding) t v
  = Some (t +:+ "_" +:+ v).
Proof.
  intros Ht Hh. revert encoding.
  induction cols as [|c cols IH]; intros encoding [Hin | Hold]; simpl.
  - by apply elem_of_nil in Hin.
  - done.
  - apply IH. apply elem_of_cons in Hin as [<- | Hin]; [right | by left].
    assert (split1 (t +:+ "_" +:+ v) "_" = [t; v]) as Hs
      by by apply split1_char_two.
    destruct (step_categorical encoding _ t v Hh Hs) as [_ ->].
    by rewrite decide_True.
  - apply IH. right. by apply step_keeps_roundtrip.
Qed.

Lemma step_mentions encoding c col :
  mentions (encoding_step encoding c) col ->
  mentions encoding col \/
  (col = c /\ (startswith c "has_" = true \/ Substring "_" c)).
Proof.
  destruct (step_cases c) as [Hh | [(Hh & t' & v' & Hs & Hc & Ht') | [Hh Hu]]].
  - rewrite step_has_feature by done.
    intros [(hf & Hin & Hcol) | (t & v & Hcat)].
    + simpl in Hin. apply elem_of_app in Hin as [Hin | Hin].
      * left. left. eauto.
      * apply list_elem_of_singleton in Hin as ->. right. simpl in Hcol. auto.
    + left. right. eauto.
  - destruct (step_categorical encoding c t' v' Hh Hs) as [Hhf Hcat].
    intros [(hf & Hin & Hcol) | (t & v & Hm)].
    + left. left. rewrite Hhf in Hin. eauto.
    + rewrite Hcat in Hm. destruct (decide _).
      * injection Hm as <-. right. split; [done|]. right.
        rewrite Hc. by exists t', v'.
      * left. right. eauto.
  - rewrite step_skipped by done. auto.
Qed.

Lemma fold_mentions cols encoding col :
  mentions (fold_left encoding_step cols encoding) col ->
  mentions encoding col \/
  (col ∈ cols /\ (startswith col "has_" = true \/ Substring "_" col)).
Proof.
  revert encoding. induction cols as [|c cols IH]; intros encoding; simpl.
  - auto.
  - intros [H | [Hin Hp]]%IH.
    + apply step_mentions in H as [H | [-> Hp]]; [by left | right].
      split; [apply elem_of_cons; by left | done].
    + right. split; [apply elem_of_cons; by right | done].
Qed.

Lemma fold_has_features cols encoding col :
  col ∈ cols -> startswith col "has_" = true ->
  {| column := col; tag := "tags." +:+ replace col "has_" "" |}
    ∈ has_features (fold_left encoding_step cols encoding).
Proof.
  intros Hin Hh.
  assert (Hkeep : forall cs e hf,
    hf ∈ has_features e -> hf ∈ has_features (fold_left encoding_step cs e)).
  { induction cs as [|c cs IHcs]; intros e hf Hhf; simpl; [done|].
    apply IHcs.
    destruct (step_cases c) as [H | [(H & t' & v' & Hs & _) | [H Hu]]].
    - rewrite step_has_feature by done. simpl. apply elem_of_app. by left.
    - by destruct (step_categorical e c t' v' H Hs) as [-> _].
    - by rewrite step_skipped. }
  revert encoding. induction cols as [|c cols IH]; intros encoding; simpl.
  - by apply elem_of_nil in Hin.
  - apply elem_of_cons in Hin as [<- | Hin]; [|by apply IH].
    apply Hkeep. rewrite step_has_feature by done. simpl.
    apply elem_of_app. right. by apply list_elem_of_singleton.
Qed.
End EncodingInfo.

(** *** Presence-flag columns *)

(** Every column that starts with [has_] is recorded with the tag that
    [str.replace] computes: the column name with every occurrence of [has_]
    removed. *)
Lemma has_feature_recorded useful_features feature_columns col :
  col ∈ feature_columns ->
  (exists rest, col = "has_" +:+ rest) ->
  {| column := col; tag := "tags." +:+ Str.replace col "has_" "" |}
    ∈ has_features (generate_encoding_info useful_features feature_columns).
Proof.
  intros Hin Hp%StrFacts.startswith_spec. by apply fold_has_features.
Qed.

(** C6 (the code departs from it).  For the column [has_entrance_has_ramp]
    the recorded tag is [tags.entrance_ramp]: the second [has_] is removed as
    well, whereas stripping the leading prefix alone gives
    [tags.entrance_has_ramp]. *)
Theorem has_prefix_removed_everywhere :
  has_features (generate_encoding_info [] ["has_entrance_has_ramp"])
  = [ {| column := "has_entrance_has_ramp"; tag := "tags.entrance_ramp" |} ]
  /\ "tags." +:+ Str.drop 4 "has_entrance_has_ramp" = "tags.entrance_has_ramp"
  /\ "tags.entrance_ramp" <> "tags.entrance_has_ramp".
Proof. repeat split. discriminate. Qed.

(** *** Categorical columns *)

(** C7.  A column that does not start with [has_]: when its name is
    [tag_name_value], split at the first underscore, it is stored under
    [categorical_features[tag_name][value]]; when its name has no underscore,
    the encoding description does not mention it, and the function returns
    all the same. *)
Theorem categorical_column_roundtrip
    (useful_features feature_columns : list string) (col : string) :
  col ∈ feature_columns ->
  ~ (exists rest, col = "has_" +:+ rest) ->
  (forall tag_name value,
      col = tag_name +:+ "_" +:+ value -> ~ Str.Substring "_" tag_name ->
      exists inner,
        dict_get tag_name
          (categorical_features
             (generate_encoding_info useful_features feature_columns))
        = Some inner /\
        dict_get value inner = Some col) /\
  (~ Str.Substring "_" col ->
   ~ mentions (generate_encoding_info useful_features feature_columns) col).
Proof.
  intros Hin Hh.
  assert (Hb : Str.startswith col "has_" = false).
  { destruct (Str.startswith col "has_") eqn:E; [|done].
    by apply StrFacts.startswith_spec in E. }
  split.
  - intros t v -> Ht.
    pose proof (fold_roundtrip feature_columns
                  {| has_features := []; categorical_features := [] |}
                  t v Ht Hb (or_introl Hin)) as H.
    unfold categorical in H. apply bind_Some in H as (inner & H1 & H2).
    by exists inner.
  - intros Hu [Hm | [_ [Hp | Hp]]]%fold_mentions.
    + destruct Hm as [(hf & Hhf & _) | (t & v & Hc)].
      * by apply elem_of_nil in Hhf.
      * done.
    + congruence.
    + done.
Qed.

Lemma categorical_column_roundtrip_witness :
  exists inner,
    dict_get "amenity"
      (categorical_features
         (generate_encoding_info ["amenity"]
            ["has_elevator"; "amenity_cafe"; "wheelchair"]))
    = Some inner /\
    dict_get "cafe" inner = Some "amenity_cafe".
Proof.
  refine (proj1 (categorical_column_roundtrip ["amenity"]
                   ["has_elevator"; "amenity_cafe"; "wheelchair"]
                   "amenity_cafe" _ _) "amenity" "cafe" eq_refl _).
  - apply list_elem_of_In. simpl. tauto.
  - intros [rest Hrest]. discriminate Hrest.
  - apply StrFacts.contains_false. reflexivity.
Defined.

(** C10.  The encoding description is a function of the feature columns
    alone: the argument [useful_features] has no influence on it. *)
Theorem encoding_ignores_useful_features
    (useful_features useful_features' feature_columns : list string) :
  generate_encoding_info useful_features feature_columns
  = generate_encoding_info useful_features' feature_columns.
Proof. reflexivity. Qed.

(** ** Feature importances *)

Lemma float_gt_zero v : float_gt v float_zero = true <-> float_pos v.
Proof. destruct v as [[]|[]| |[] m e]; simpl; split; done. Qed.

Lemma float_literals :
  nearest_binary64 float_0_15 15 100 /\ nearest_binary64 float_0_12 12 100 /\
  nearest_binary64 float_0_08 8 100 /\ nearest_binary64 float_0_05 5 100 /\
  nearest_binary64 float_0_01 1 100.
Proof. repeat split; vm_compute; discriminate. Qed.

Section NativeImportances.
Implicit Types (acc : list (string * spec_float)).

Lemma native_importances_fold feature_columns importances idx acc :
  idx + length importances <= length feature_columns ->
  native_importances feature_columns idx importances acc
  = inr (fold_left native_step (zip (drop idx feature_columns) importances) acc).
Proof.
  revert idx acc.
  induction importances as [|v rest IH]; intros idx acc Hlen; simpl.
  - by rewrite zip_with_nil_r.
  - simpl in Hlen.
    destruct (lookup_lt_is_Some_2 feature_columns idx) as [c Hc]; [lia|].
    rewrite Hc, (drop_S _ _ _ Hc). simpl. unfold native_step at 2. simpl.
    destruct (float_gt v float_zero); apply IH; lia.
Qed.

Lemma native_importances_error feature_columns importances idx acc :
  idx <= length feature_columns ->
  length feature_columns < idx + length importances ->
  Forall float_pos importances ->
  native_importances feature_columns idx importances acc = inl IndexError.
Proof.
  revert idx acc.
  induction importances as [|v rest IH]; intros idx acc Hidx Hlen Hpos; simpl.
  - simpl in Hlen. lia.
  - apply Forall_cons in Hpos as [Hv Hrest].
    apply float_gt_zero in Hv. rewrite Hv.
    destruct (feature_columns !! idx) as [c|] eqn:Hc; [|done].
    apply lookup_lt_Some in Hc.
    apply IH; [lia | | done]. simpl in Hlen. lia.
Qed.

Lemma fold_native_get (l : list (string * spec_float)) acc name v :
  dict_get name (fold_left native_step l acc) = Some v <->
  (exists i, l !! i = Some (name, v) /\ float_pos v /\
             forall j w, i < j -> l !! j = Some (name, w) -> ~ float_pos w) \/
  ((forall j w, l !! j = Some (name, w) -> ~ float_pos w) /\
   dict_get name acc = Some v).
Proof.
  revert acc. induction l as [|[c w] l IH]; intros acc; simpl.
  - split; [intros H; right; by split | intros [(i & H & _) | [_ H]]; done].
  - rewrite IH. clear IH. unfold native_step. simpl.
    split.
    + intros [(i & Hi & Hv & Hlast) | [Hnone Hacc]].
      * left. exists (S i). split; [done|]. split; [done|].
        intros [|j] w' Hj; [lia|]. simpl. apply Hlast. lia.
      * destruct (float_gt w float_zero) eqn:Hw.
        -- rewrite dict_get_set in Hacc.
           destruct (decide (name = c)) as [->|Hne].
           ++ injection Hacc as ->. left. exists 0. split; [done|].
              split; [by apply float_gt_zero|].
              intros [|j] w' Hj; [lia|]. simpl. apply Hnone.
           ++ right. split; [|done].
              intros [|j] w'; simpl; [congruence | apply Hnone].
        -- right. split; [|done].
           intros [|j] w'; simpl; [|apply Hnone].
           intros [= -> ->]. rewrite <- float_gt_zero. congruence.
    + intros [(i & Hi & Hv & Hlast) | [Hnone Hacc]].
      * destruct i as [|i]; simpl in Hi.
        -- injection Hi as -> ->. right. split.
           ++ intros j w'. apply (Hlast (S j)). lia.
           ++ apply float_gt_zero in Hv. rewrite Hv. apply dict_get_set_eq.
        -- left. exists i. split; [done|]. split; [done|].
           intros j w' Hj. apply (Hlast (S j)). lia.
      * right. split; [intros j w'; apply (Hnone (S j))|].
        destruct (float_gt w float_zero) eqn:Hw; [|done].
        rewrite dict_get_set_ne; [done|]. intros ->.
        apply (Hnone 0 w); [done | by apply float_gt_zero].
Qed.

(** The map that the native loop builds, when the importance vector is no
    longer than the column list. *)
Lemma native_importances_spec feature_columns importances :
  length importances <= length feature_columns ->
  exists fi,
    native_importances feature_columns 0 importances [] = inr fi /\
    forall name v,
      dict_get name fi = Some v <->
      exists i, last_positive feature_columns importances name i v.
Proof.
  intros Hlen. eexists. split.
  - apply native_importances_fold. simpl. lia.
  - intros name v. rewrite fold_native_get, drop_0. unfold last_positive.
    split.
    + intros [(i & Hi & Hv & Hlast) | [_ H]]; [|done].
      apply lookup_zip_Some in Hi as [Hc Hw].
      exists i. repeat split; try done.
      intros j w Hj Hcj Hwj. apply (Hlast j w Hj).
      by apply lookup_zip_Some.
    + intros (i & Hc & Hw & Hv & Hlast). left. exists i.
      split; [by apply lookup_zip_Some|]. split; [done|].
      intros j w Hj [Hcj Hwj]%lookup_zip_Some. by apply (Hlast j w).
Qed.
End NativeImportances.

Section HeuristicImportances.
Import Str StrFacts.

Lemma any_in_matches words col :
  any_in words (lower col) = true <-> matches words col.
Proof.
  unfold any_in, matches. rewrite existsb_exists. split.
  - intros (w & Hin & Hc). exists w.
    split; [by apply list_elem_of_In | by apply contains_spec].
  - intros (w & Hin & Hc). exists w.
    split; [by apply list_elem_of_In | by apply contains_spec].
Qed.

Lemma any_in_no_match words col :
  any_in words (lower col) = false <-> ~ matches words col.
Proof.
  rewrite <- any_in_matches. by destruct (any_in words (lower col)).
Qed.

(** The importance computed for a column, filtered by [importance > 0.01],
    is the entry that the first applicable rule prescribes. *)
Lemma heuristic_importance_rule col :
  heuristic_rule col
    (if float_gt (heuristic_importance col) float_0_01
     then Some (heuristic_importance col) else None).
Proof.
  unfold heuristic_importance.
  destruct (any_in accessibility_positive (lower col)) eqn:Hpos.
  { apply rule_positive. by apply any_in_matches. }
  apply any_in_no_match in Hpos.
  destruct (any_in accessibility_negative (lower col)) eqn:Hneg.
  { apply rule_negative; [done | by apply any_in_matches]. }
  apply any_in_no_match in Hneg.
  destruct (any_in place_type (lower col)) eqn:Hpt.
  { apply rule_place_type; [done | done | by apply any_in_matches]. }
  apply any_in_no_match in Hpt.
  destruct (startswith (lower col) "has_") eqn:Hhas.
  { apply rule_has_prefix; [done | done | done | by apply startswith_spec]. }
  apply rule_base; [done | done | done |].
  intros H%startswith_spec. congruence.
Qed.

Lemma fold_heuristic_get cols acc name :
  dict_get name (fold_left heuristic_step cols acc) =
  if decide (name ∈ cols /\
             float_gt (heuristic_importance name) float_0_01 = true)
  then Some (heuristic_importance name)
  else dict_get name acc.
Proof.
  revert acc. induction cols as [|c cols IH]; intros acc; cbn [fold_left].
  - rewrite decide_False; [done|]. intros [H _]. by apply elem_of_nil in H.
  - rewrite IH. clear IH.
    destruct (decide (name ∈ cols /\ _)) as [[Hin Hgt]|Hno].
    + rewrite decide_True; [done|]. split; [by apply elem_of_cons; right | done].
    + unfold heuristic_step.
      destruct (decide (name = c)) as [->|Hne].
      * destruct (float_gt (heuristic_importance c) float_0_01) eqn:Hgt.
        -- rewrite dict_get_set_eq, decide_True; [done|].
           split; [by apply elem_of_cons; left | done].
        -- rewrite decide_False; [done | by intros [_ [=]]].
      * rewrite decide_False.
        -- destruct (float_gt (heuristic_importance c) float_0_01); [|done].
           by rewrite dict_get_set_ne.
        -- intros [[?|Hin]%elem_of_cons Hgt]; [done | by apply Hno].
Qed.

(** The map that the fallback builds: it holds columns only, and for each
    column the entry prescribed by the rules. *)
Lemma heuristic_importances_spec feature_columns :
  (forall name v,
     dict_get name (heuristic_importances feature_columns) = Some v ->
     name ∈ feature_columns) /\
  (forall col,
     col ∈ feature_columns ->
     heuristic_rule col (dict_get col (heuristic_importances feature_columns))).
Proof.
  unfold heuristic_importances. split.
  - intros name v. rewrite fold_heuristic_get.
    destruct (decide _) as [[Hin _]|]; [done | by simpl].
  - intros col Hin. rewrite fold_heuristic_get.
    pose proof (heuristic_importance_rule col) as Hrule.
    destruct (float_gt (heuristic_importance col) float_0_01).
    + by rewrite decide_True.
    + rewrite decide_False; [done | by intros [_ [=]]].
Qed.
End HeuristicImportances.

(** ** The monad *)

Section MonadFacts.
Context {A B : Type}.
Implicit Types (m : M A) (f : A -> M B) (s : State).

Lemma bind_ok m f s x s1 : m s = (inr x, s1) -> (m ≫= f) s = f x s1.
Proof. intros Hm. unfold mbind, M_bind. by rewrite Hm. Qed.

Lemma bind_err m f s e s1 : m s = (inl e, s1) -> (m ≫= f) s = (inl e, s1).
Proof. intros Hm. unfold mbind, M_bind. by rewrite Hm. Qed.

Lemma bind_cases m f s :
  (exists x s1, m s = (inr x, s1) /\ (m ≫= f) s = f x s1) \/
  (exists e s1, m s = (inl e, s1) /\ (m ≫= f) s = (inl e, s1)).
Proof.
  destruct (m s) as [[e|x] s1] eqn:Hm.
  - right. exists e, s1. split; [done | by apply bind_err].
  - left. exists x, s1. split; [done | by apply bind_ok].
Qed.
End MonadFacts.

Lemma try_except_ok {A} (body : M A) handler s x s1 :
  body s = (inr x, s1) -> try_except body handler s = (inr x, s1).
Proof. intros H. unfold try_except. by rewrite H. Qed.

Lemma try_except_caught {A} (body : M A) handler s e s1 h :
  body s = (inl e, s1) -> handler e = Some h ->
  try_except body handler s = h s1.
Proof. intros H Hh. unfold try_except. by rewrite H, Hh. Qed.

(** *** Computations that emit only events of one kind *)

Section EmitsOnly.
Context (P : Event -> Prop).

Lemma emits_only_ret {A} (x : A) : emits_only P (mret x).
Proof. intros s. exists []. by rewrite app_nil_r. Qed.

Lemma emits_only_raise {A} e : emits_only P (raise e : M A).
Proof. intros s. exists []. by rewrite app_nil_r. Qed.

Lemma emits_only_lift {A} (r : Exn + A) : emits_only P (lift r).
Proof. intros s. exists []. by rewrite app_nil_r. Qed.

Lemma emits_only_index {A} (l : list A) i : emits_only P (index l i).
Proof.
  unfold index. destruct (l !! i);
    [apply emits_only_ret | apply emits_only_raise].
Qed.

Lemma emits_only_emit ev : P ev -> emits_only P (emit ev).
Proof. intros H s. exists [ev]. split; [done | by apply Forall_singleton]. Qed.

Lemma emits_only_bind {A B} (m : M A) (f : A -> M B) :
  emits_only P m -> (forall x, emits_only P (f x)) -> emits_only P (m ≫= f).
Proof.
  intros Hm Hf s. destruct (Hm s) as (tr & Htr & HP).
  destruct (bind_cases m f s) as [(x & s1 & H1 & ->) | (e & s1 & H1 & ->)];
    rewrite H1 in Htr; simpl in Htr.
  - destruct (Hf x s1) as (tr' & Htr' & HP').
    exists (tr ++ tr'). rewrite Htr', Htr, app_assoc.
    split; [done | by apply Forall_app].
  - by exists tr.
Qed.

Lemma emits_only_try {A} (body : M A) handler :
  emits_only P body ->
  (forall e h, handler e = Some h -> emits_only P h) ->
  emits_only P (try_except body handler).
Proof.
  intros Hb Hh s. destruct (Hb s) as (tr & Htr & HP). unfold try_except.
  destruct (body s) as [[e|x] s1]; simpl in Htr; [|by exists tr].
  destruct (handler e) as [h|] eqn:He; [|by exists tr].
  destruct (Hh e h He s1) as (tr' & Htr' & HP').
  exists (tr ++ tr'). rewrite Htr', Htr, app_assoc.
  split; [done | by apply Forall_app].
Qed.
End EmitsOnly.

Lemma emits_only_weaken {A} (P Q : Event -> Prop) (m : M A) :
  (forall ev, P ev -> Q ev) -> emits_only P m -> emits_only Q m.
Proof.
  intros HPQ Hm s. destruct (Hm s) as (tr & Htr & HP).
  exists tr. split; [done|]. eapply Forall_impl; eauto.
Qed.

(** *** Computations that leave the files alone *)

Lemma keeps_files_ret {A} (x : A) : keeps_files (mret x).
Proof. done. Qed.

Lemma keeps_files_raise {A} e : keeps_files (raise e : M A).
Proof. done. Qed.

Lemma keeps_files_lift {A} (r : Exn + A) : keeps_files (lift r).
Proof. done. Qed.

Lemma keeps_files_emit ev : keeps_files (emit ev).
Proof. done. Qed.

Lemma keeps_files_index {A} (l : list A) i : keeps_files (index l i).
Proof. unfold index. by destruct (l !! i). Qed.

Lemma keeps_files_bind {A B} (m : M A) (f : A -> M B) :
  keeps_files m -> (forall x, keeps_files (f x)) -> keeps_files (m ≫= f).
Proof.
  intros Hm Hf s. specialize (Hm s).
  destruct (bind_cases m f s) as [(x & s1 & H1 & ->) | (e & s1 & H1 & ->)];
    rewrite H1 in Hm; simpl in Hm.
  - by rewrite Hf.
  - done.
Qed.

Lemma keeps_files_try {A} (body : M A) handler :
  keeps_files body ->
  (forall e h, handler e = Some h -> keeps_files h) ->
  keeps_files (try_except body handler).
Proof.
  intros Hb Hh s. specialize (Hb s). unfold try_except.
  destruct (body s) as [[e|x] s1]; simpl in Hb; [|done].
  destruct (handler e) as [h|] eqn:He; [|done].
  by rewrite (Hh e h He).
Qed.

(** ** The steps of the script *)

Lemma joblib_load_ok p s md :
  files s !! p = Some (FPickle md) ->
  joblib_load p s
  = (inr md, {| files := files s; trace := trace s ++ [ELoad p] |}).
Proof. intros H. unfold joblib_load. by rewrite H. Qed.


Lemma makedirs_ok env p s :
  makedirs_error env p = None ->
  makedirs env p s
  = (inr tt, {| files := files s; trace := trace s ++ [EMakedirs p] |}).
Proof.
  intros H. unfold makedirs. erewrite bind_ok by reflexivity. by rewrite H.
Qed.

Lemma write_file_ok env p c s :
  open_error env p = None -> write_error env p = None ->
  write_file env p c s
  = (inr tt, {| files := <[p := c]> (files s);
                trace := trace s ++ [EWrite p c] |}).
Proof. intros H H'. unfold write_file. by rewrite H, H'. Qed.

Lemma write_file_refused env p c s e :
  open_error env p = Some e -> write_file env p c s = (inl e, s).
Proof. intros H. unfold write_file. by rewrite H. Qed.

Lemma write_file_interrupted env p c s e partial :
  open_error env p = None -> write_error env p = Some (e, partial) ->
  write_file env p c s
  = (inl e, {| files := <[p := FRaw partial]> (files s);
               trace := trace s ++ [EWriteFailed p partial] |}).
Proof. intros H H'. unfold write_file. by rewrite H, H'. Qed.

Lemma call_convert_sklearn_eq env model args s r :
  convert_sklearn env model args = r ->
  call_convert_sklearn env model args s
  = (r, {| files := files s; trace := trace s ++ [EConvert model args] |}).
Proof. by intros <-. Qed.

Lemma emits_only_makedirs P env p :
  P (EMakedirs p) -> emits_only P (makedirs env p).
Proof.
  intros HP. unfold makedirs. apply emits_only_bind; [by apply emits_only_emit|].
  intros _. destruct (makedirs_error env p);
    [apply emits_only_raise | apply emits_only_ret].
Qed.

Lemma emits_only_write_file P env p c :
  P (EWrite p c) -> (forall partial, P (EWriteFailed p partial)) ->
  emits_only P (write_file env p c).
Proof.
  intros HP HP' s. unfold write_file. destruct (open_error env p); simpl.
  - exists []. by rewrite app_nil_r.
  - destruct (write_error env p) as [[e partial]|]; simpl.
    + exists [EWriteFailed p partial].
      split; [done | by apply Forall_singleton].
    + exists [EWrite p c]. split; [done | by apply Forall_singleton].
Qed.

(** *** The feature importances *)

Lemma extract_importances_files model feature_columns :
  keeps_files (extract_importances model feature_columns).
Proof.
  unfold extract_importances. destruct (feature_importances_ model).
  - apply keeps_files_bind; [apply keeps_files_lift|]. intros fi.
    apply keeps_files_bind; [apply keeps_files_emit | done].
  - apply keeps_files_try.
    + apply keeps_files_bind; [apply keeps_files_emit|]. intros _.
      apply keeps_files_bind; [apply keeps_files_emit | done].
    + intros e h [= <-].
      apply keeps_files_bind; [apply keeps_files_emit | done].
Qed.

Lemma extract_importances_events model feature_columns :
  emits_only test_event (extract_importances model feature_columns).
Proof.
  unfold extract_importances. destruct (feature_importances_ model).
  - apply emits_only_bind; [apply emits_only_lift|]. intros fi.
    apply emits_only_bind; [by apply emits_only_emit|]. intros _.
    apply emits_only_ret.
  - apply emits_only_try.
    + apply emits_only_bind; [by apply emits_only_emit|]. intros _.
      apply emits_only_bind; [by apply emits_only_emit|]. intros _.
      apply emits_only_ret.
    + intros e h [= <-].
      apply emits_only_bind; [by apply emits_only_emit|]. intros _.
      apply emits_only_ret.
Qed.

(** The statement returns what [importances_of] computes. *)
Lemma extract_importances_result model feature_columns s :
  (extract_importances model feature_columns s).1
  = importances_of model feature_columns.
Proof.
  unfold extract_importances, importances_of.
  destruct (feature_importances_ model) as [importances|].
  - unfold mbind, M_bind, lift.
    by destruct (native_importances feature_columns 0 importances []).
  - reflexivity.
Qed.

(** *** The test inference *)

Lemma test_handler_report e : test_handler e = Some (print (report e)).
Proof. by destruct e. Qed.

Lemma import_onnxruntime_files env : keeps_files (import_onnxruntime env).
Proof. unfold import_onnxruntime. by destruct (onnxruntime env). Qed.

Lemma import_onnxruntime_events env :
  emits_only test_event (import_onnxruntime env).
Proof.
  unfold import_onnxruntime. destruct (onnxruntime env);
    [apply emits_only_ret | apply emits_only_raise].
Qed.

Lemma inference_session_files ort p : keeps_files (inference_session ort p).
Proof. intros s. unfold inference_session. by destruct (files s !! p). Qed.

Lemma inference_session_events ort p :
  emits_only test_event (inference_session ort p).
Proof.
  intros s. exists [ESession p]. unfold inference_session.
  split; [by destruct (files s !! p) | by apply Forall_singleton].
Qed.

Lemma test_inference_files env root feature_columns :
  keeps_files (test_inference env root feature_columns).
Proof.
  unfold test_inference.
  repeat first
    [ apply keeps_files_bind; [|intros ?]
    | apply import_onnxruntime_files
    | apply inference_session_files
    | apply keeps_files_index
    | apply keeps_files_emit
    | apply keeps_files_lift ].
Qed.

Lemma test_inference_events env root feature_columns :
  emits_only test_event (test_inference env root feature_columns).
Proof.
  unfold test_inference.
  repeat first
    [ apply emits_only_bind; [|intros ?]
    | apply import_onnxruntime_events
    | apply inference_session_events
    | apply emits_only_index
    | by apply emits_only_emit
    | apply emits_only_lift ].
Qed.

(** Whatever the test inference does, the [try] statement completes, leaves
    the files as they are, and an exception is reported by one message. *)
Lemma test_guarded env root feature_columns s :
  exists tr,
    try_except (test_inference env root feature_columns) test_handler s
    = (inr tt, {| files := files s; trace := trace s ++ tr |}) /\
    Forall test_event tr /\
    forall e s1,
      test_inference env root feature_columns s = (inl e, s1) ->
      trace s ++ tr = trace s1 ++ [EPrint (report e)].
Proof.
  pose proof (test_inference_files env root feature_columns s) as Hf.
  destruct (test_inference_events env root feature_columns s)
    as (tr & Htr & HP).
  unfold try_except.
  destruct (test_inference env root feature_columns s) as [[e|[]] s1];
    simpl in Hf, Htr.
  - rewrite test_handler_report. exists (tr ++ [EPrint (report e)]).
    split; [|split].
    + unfold print, emit. by rewrite Hf, Htr, app_assoc.
    + apply Forall_app. split; [done | by apply Forall_singleton].
    + intros e' s1' [= <- <-]. by rewrite Htr, app_assoc.
  - exists tr. split; [|split].
    + destruct s1 as [fs1 tr1]. simpl in *. by rewrite Hf, Htr.
    + done.
    + intros e' s1' [=].
Qed.

(** ** The output paths *)

Section PathFacts.
Import Str StrFacts.

Lemma ends_with_slash_app p c s :
  Path.ends_with_slash (p +:+ String c s) = Path.ends_with_slash (String c s).
Proof.
  induction p as [|a p IH]; [done|].
  change (String a p +:+ String c s) with (String a (p +:+ String c s)).
  rewrite <- IH. by destruct p.
Qed.

(** Joining a relative name prepends a directory prefix that depends on the
    directory alone. *)
Lemma join_relative a :
  exists p, forall c b, c <> "/"%char ->
    Path.join a (String c b) = p +:+ String c b.
Proof.
  exists (if bool_decide (a = "") || Path.ends_with_slash a
          then a else a +:+ "/").
  intros c b Hc. unfold Path.join. simpl.
  rewrite decide_False by done.
  destruct (bool_decide (a = "") || Path.ends_with_slash a); [done|].
  by rewrite app_assoc.
Qed.

Lemma join_under p c s d b :
  d <> "/"%char ->
  Path.ends_with_slash (String c s) = false ->
  Path.join (p +:+ String c s) (String d b)
  = p +:+ (String c s +:+ "/" +:+ String d b).
Proof.
  intros Hd Hs. unfold Path.join.
  change (startswith (String d b) "/")
    with (if decide ("/"%char = d) then startswith b "" else false).
  rewrite decide_False by done.
  rewrite ends_with_slash_app, Hs, orb_false_r.
  rewrite bool_decide_eq_false_2 by by destruct p.
  by rewrite !app_assoc.
Qed.

(** Both output paths lie under the same directory prefix. *)
Lemma output_paths root :
  exists p,
    ONNX_OUTPUT_PATH root = p +:+ "public/models/accessibility_model.onnx" /\
    CONFIG_OUTPUT_PATH root
    = p +:+ "app/api/accessibility-predict/model_config.json".
Proof.
  destruct (join_relative root) as [p Hp]. exists p.
  unfold ONNX_OUTPUT_PATH, CONFIG_OUTPUT_PATH, Path.join_all.
  cbn [fold_left]. rewrite !Hp by done.
  split; repeat (rewrite join_under by done; simpl append); done.
Qed.

Lemma output_paths_differ root :
  ONNX_OUTPUT_PATH root <> CONFIG_OUTPUT_PATH root.
Proof.
  destruct (output_paths root) as (p & -> & ->).
  intros H%app_inv_head. discriminate H.
Qed.
End PathFacts.

(** ** Whole runs *)

Lemma test_events_quiet tr :
  Forall test_event tr -> convert_calls tr = [] /\ writes tr = [].
Proof.
  induction 1 as [|ev tr Hev _ [IH1 IH2]]; [done|].
  destruct ev; simpl in Hev; try destruct Hev; split; assumption.
Qed.

Lemma extract_importances_ok model feature_columns s fi :
  importances_of model feature_columns = inr fi ->
  exists tr,
    extract_importances model feature_columns s
    = (inr fi, {| files := files s; trace := trace s ++ tr |}) /\
    Forall test_event tr.
Proof.
  intros Hfi.
  pose proof (extract_importances_result model feature_columns s) as Hr.
  pose proof (extract_importances_files model feature_columns s) as Hf.
  destruct (extract_importances_events model feature_columns s)
    as (tr & Htr & HP).
  exists tr. split; [|done].
  destruct (extract_importances model feature_columns s) as [r [fs tr1]].
  simpl in *. by rewrite Hr, Hfi, Hf, Htr.
Qed.

Lemma script_completes env root s md class_mapping g fi :
  Ready env root s md class_mapping g ->
  importances_of (md_model md) (md_feature_columns md) = inr fi ->
  exists tr,
    script env root s
    = (inr tt,
       {| files :=
            <[CONFIG_OUTPUT_PATH root := FJson (written_config md class_mapping fi)]>
              (<[ONNX_OUTPUT_PATH root := FOnnx g]> (files s));
          trace := trace s ++ tr |}) /\
    convert_calls tr
    = [(md_model md, conversion_args (md_model md) (md_feature_columns md))] /\
    writes tr = [ONNX_OUTPUT_PATH root; CONFIG_OUTPUT_PATH root] /\
    last tr = Some (EPrint MDone).
Proof.
  intros [Hart Hmap Hconv Hd1 Hd2 Hf1 Hf2 Hwr1 Hwr2] Himp.
  unfold script, main.
  do 2 (erewrite bind_ok by reflexivity; cbn [files trace]).
  erewrite bind_ok by (by apply joblib_load_ok). cbn [files trace].
  cbn zeta.
  erewrite bind_ok by (unfold lift; by rewrite Hmap). cbn [files trace].
  do 6 (erewrite bind_ok by reflexivity; cbn [files trace]).
  erewrite bind_ok by (by apply call_convert_sklearn_eq). cbn [files trace].
  erewrite bind_ok by (by apply makedirs_ok). cbn [files trace].
  erewrite bind_ok by (by apply makedirs_ok). cbn [files trace].
  erewrite bind_ok by (by apply write_file_ok). cbn [files trace].
  erewrite bind_ok by reflexivity; cbn [files trace].
  match goal with
  | |- context [ (extract_importances _ _ ≫= _) ?st ] =>
      destruct (extract_importances_ok (md_model md) (md_feature_columns md)
                  st fi Himp) as (tr1 & Hex & [Hc1 Hw1]%test_events_quiet)
  end.
  erewrite bind_ok by exact Hex. cbn [files trace].
  erewrite bind_ok by (by apply write_file_ok). cbn [files trace].
  do 2 (erewrite bind_ok by reflexivity; cbn [files trace]).
  match goal with
  | |- context [ (try_except _ _ ≫= _) ?st ] =>
      destruct (test_guarded env root (md_feature_columns md) st)
        as (tr2 & Hg & [Hc2 Hw2]%test_events_quiet & _)
  end.
  erewrite bind_ok by exact Hg. cbn [files trace].
  unfold print, emit. cbn [files trace].
  rewrite <- !app_assoc. eexists. split; [reflexivity|].
  split; [|split].
  - unfold convert_calls in *. by rewrite !omap_app, Hc1, Hc2.
  - unfold writes in *. by rewrite !omap_app, Hw1, Hw2.
  - by rewrite !app_assoc, last_snoc.
Qed.

(** The sample environment is ready for each sample artifact. *)
Lemma sample_ready ort model n_classes raw class_mapping :
  int_keys (default default_class_mapping raw) [] = inr class_mapping ->
  Ready (Sample.env ort) Sample.root
    (Sample.start (Sample.artifact model n_classes raw))
    (Sample.artifact model n_classes raw) class_mapping (Sample.graph model).
Proof.
  intros H. split; try done.
  unfold convert_sklearn, Sample.env, Sample.converter, zipmap_option.
  cbn [conversion_args options dict_get]. by rewrite decide_True.
Qed.

(** C1.  When a run is ready and the feature importances can be computed,
    it completes and the configuration file holds [feature_columns] exactly
    as the artifact has it: the same list, in the same order. *)
Theorem feature_columns_preserved env root s md class_mapping g fi :
  Ready env root s md class_mapping g ->
  importances_of (md_model md) (md_feature_columns md) = inr fi ->
  exists cfg s',
    script env root s = (inr tt, s') /\
    files s' !! CONFIG_OUTPUT_PATH root = Some (FJson cfg) /\
    cfg_feature_columns cfg = md_feature_columns md.
Proof.
  intros Hready Himp.
  destruct (script_completes env root s md class_mapping g fi Hready Himp)
    as (tr & Hrun & _).
  eexists _, _. split; [exact Hrun|]. split; [apply lookup_insert_eq | done].
Qed.

Lemma feature_columns_preserved_witness :
  exists cfg s',
    script (Sample.env None) Sample.root (Sample.start Sample.forest_artifact)
    = (inr tt, s') /\
    files s' !! CONFIG_OUTPUT_PATH Sample.root = Some (FJson cfg) /\
    cfg_feature_columns cfg = ["has_ramp"; "stairs_present"; "random_flag_7"].
Proof.
  apply (feature_columns_preserved (Sample.env None) Sample.root
           (Sample.start Sample.forest_artifact) Sample.forest_artifact
           [(0%Z, "not_accessible"); (1%Z, "limited"); (2%Z, "accessible")]
           (Sample.graph Sample.forest)
           [("has_ramp", Sample.float_0_2); ("random_flag_7", float_0_15)]).
  - apply sample_ready. reflexivity.
  - reflexivity.
Defined.

(** C2 as stated fails: for a 2-class artifact whose class mapping is
    [{0: "inaccessible", 1: "wheelchair_ok"}] the run writes that mapping
    next to the labels [["not_accessible", "accessible"]], which are not the
    labels of the mapping in index order. *)
Lemma labels_ignore_two_class_mapping :
  exists cfg s',
    script (Sample.env None) Sample.root (Sample.start Sample.boosting_artifact)
    = (inr tt, s') /\
    files s' !! CONFIG_OUTPUT_PATH Sample.root = Some (FJson cfg) /\
    cfg_class_mapping cfg = [(0%Z, "inaccessible"); (1%Z, "wheelchair_ok")] /\
    cfg_labels cfg = ["not_accessible"; "accessible"] /\
    cfg_labels cfg <> ["inaccessible"; "wheelchair_ok"].
Proof.
  destruct (script_completes (Sample.env None) Sample.root
              (Sample.start Sample.boosting_artifact) Sample.boosting_artifact
              [(0%Z, "inaccessible"); (1%Z, "wheelchair_ok")]
              (Sample.graph Sample.boosting)
              (heuristic_importances Sample.columns))
    as (tr & Hrun & _).
  { apply sample_ready. reflexivity. }
  { reflexivity. }
  eexists _, _. split; [exact Hrun|]. split; [apply lookup_insert_eq|].
  repeat split. discriminate.
Qed.

(** C2, amended.  The labels follow the class count: when [n_classes] is 3
    they are the entries 0, 1, 2 of the class mapping (with integer keys),
    a missing index [i] giving [class_i]; for every other class count, and
    so when the artifact gives none, they are the fixed pair
    [["not_accessible", "accessible"]] whatever the class mapping is. *)
Theorem labels_by_class_count env root s md class_mapping g fi :
  Ready env root s md class_mapping g ->
  importances_of (md_model md) (md_feature_columns md) = inr fi ->
  exists cfg s',
    script env root s = (inr tt, s') /\
    files s' !! CONFIG_OUTPUT_PATH root = Some (FJson cfg) /\
    cfg_class_mapping cfg = class_mapping /\
    (md_n_classes md = Some 3%Z ->
     cfg_labels cfg
     = [ default "class_0" (dict_get 0%Z class_mapping);
         default "class_1" (dict_get 1%Z class_mapping);
         default "class_2" (dict_get 2%Z class_mapping) ]) /\
    (md_n_classes md <> Some 3%Z ->
     cfg_labels cfg = ["not_accessible"; "accessible"]).
Proof.
  intros Hready Himp.
  destruct (script_completes env root s md class_mapping g fi Hready Himp)
    as (tr & Hrun & _).
  eexists _, _. split; [exact Hrun|]. split; [apply lookup_insert_eq|].
  split; [done|]. unfold written_config, make_labels; simpl. split.
  - by intros ->.
  - intros Hn. destruct (md_n_classes md) as [n|]; simpl; [|done].
    destruct (Z.eqb_spec n 3) as [->|]; [done | done].
Qed.

Lemma labels_by_class_count_witness :
  exists cfg s',
    script (Sample.env None) Sample.root (Sample.start Sample.forest_artifact)
    = (inr tt, s') /\
    files s' !! CONFIG_OUTPUT_PATH Sample.root = Some (FJson cfg) /\
    cfg_class_mapping cfg
    = [(0%Z, "not_accessible"); (1%Z, "limited"); (2%Z, "accessible")] /\
    (Some 3%Z = Some 3%Z ->
     cfg_labels cfg = ["not_accessible"; "limited"; "accessible"]) /\
    (Some 3%Z <> Some 3%Z ->
     cfg_labels cfg = ["not_accessible"; "accessible"]).
Proof.
  apply (labels_by_class_count (Sample.env None) Sample.root
           (Sample.start Sample.forest_artifact) Sample.forest_artifact
           [(0%Z, "not_accessible"); (1%Z, "limited"); (2%Z, "accessible")]
           (Sample.graph Sample.forest)
           [("has_ramp", Sample.float_0_2); ("random_flag_7", float_0_15)]).
  - apply sample_ready. reflexivity.
  - reflexivity.
Defined.

(** C4.  For an estimator with native importances, one per feature column,
    the run completes and the importance map of the configuration holds
    exactly the features with a strictly positive importance, each with
    that importance (the last one, should a column name occur twice); with
    distinct column names a feature is in the map with its importance when
    that is strictly positive, and absent otherwise, as for 0.0. *)
Theorem native_importances_kept env root s md class_mapping g importances :
  Ready env root s md class_mapping g ->
  feature_importances_ (md_model md) = Some importances ->
  length importances = length (md_feature_columns md) ->
  exists cfg s',
    script env root s = (inr tt, s') /\
    files s' !! CONFIG_OUTPUT_PATH root = Some (FJson cfg) /\
    (forall name v,
       dict_get name (cfg_feature_importances cfg) = Some v <->
       exists i, last_positive (md_feature_columns md) importances name i v) /\
    (NoDup (md_feature_columns md) ->
     forall i name v,
       md_feature_columns md !! i = Some name -> importances !! i = Some v ->
       (float_pos v ->
        dict_get name (cfg_feature_importances cfg) = Some v) /\
       (~ float_pos v ->
        dict_get name (cfg_feature_importances cfg) = None)).
Proof.
  intros Hready Hnative Hlen.
  destruct (native_importances_spec (md_feature_columns md) importances)
    as (fi & Hfi & Hspec); [lia|].
  assert (Himp : importances_of (md_model md) (md_feature_columns md) = inr fi)
    by (unfold importances_of; by rewrite Hnative).
  destruct (script_completes env root s md class_mapping g fi Hready Himp)
    as (tr & Hrun & _).
  eexists _, _. split; [exact Hrun|]. split; [apply lookup_insert_eq|].
  simpl. split; [exact Hspec|].
  intros Hnodup i name v Hc Hv. split.
  - intros Hpos. apply Hspec. exists i. repeat split; try done.
    intros j w Hj Hcj _. pose proof (NoDup_lookup _ _ _ _ Hnodup Hc Hcj). lia.
  - intros Hneg. destruct (dict_get name fi) as [w|] eqn:Hg; [|done].
    apply Hspec in Hg as (j & Hcj & Hwj & Hpos & _).
    pose proof (NoDup_lookup _ _ _ _ Hnodup Hc Hcj) as <-.
    congruence.
Qed.

Lemma native_importances_kept_witness :
  exists cfg s',
    script (Sample.env None) Sample.root (Sample.start Sample.forest_artifact)
    = (inr tt, s') /\
    files s' !! CONFIG_OUTPUT_PATH Sample.root = Some (FJson cfg) /\
    (forall name v,
       dict_get name (cfg_feature_importances cfg) = Some v <->
       exists i,
         last_positive ["has_ramp"; "stairs_present"; "random_flag_7"]
           [Sample.float_0_2; float_zero; float_0_15] name i v) /\
    (NoDup ["has_ramp"; "stairs_present"; "random_flag_7"] ->
     forall i name v,
       ["has_ramp"; "stairs_present"; "random_flag_7"] !! i = Some name ->
       [Sample.float_0_2; float_zero; float_0_15] !! i = Some v ->
       (float_pos v ->
        dict_get name (cfg_feature_importances cfg) = Some v) /\
       (~ float_pos v ->
        dict_get name (cfg_feature_importances cfg) = None)).
Proof.
  apply (native_importances_kept (Sample.env None) Sample.root
           (Sample.start Sample.forest_artifact) Sample.forest_artifact
           [(0%Z, "not_accessible"); (1%Z, "limited"); (2%Z, "accessible")]
           (Sample.graph Sample.forest)
           [Sample.float_0_2; float_zero; float_0_15]).
  - apply sample_ready. reflexivity.
  - reflexivity.
  - reflexivity.
Defined.

(** C5.  For an estimator without native importances the run completes, the
    importance map holds feature columns only, and each column has the entry
    that the first applicable rule gives: 0.15 for the accessibility-positive
    vocabulary, else 0.12 for the negative one, else 0.08 for a place type,
    else 0.05 for a lower-cased name starting with [has_], else no entry.
    So [has_ramp] has 0.15, [stairs_present] has 0.12 and [random_flag_7]
    has no entry. *)
Theorem heuristic_importances_assigned env root s md class_mapping g :
  Ready env root s md class_mapping g ->
  feature_importances_ (md_model md) = None ->
  exists cfg s',
    script env root s = (inr tt, s') /\
    files s' !! CONFIG_OUTPUT_PATH root = Some (FJson cfg) /\
    (forall name v,
       dict_get name (cfg_feature_importances cfg) = Some v ->
       name ∈ md_feature_columns md) /\
    (forall col,
       col ∈ md_feature_columns md ->
       heuristic_rule col (dict_get col (cfg_feature_importances cfg))) /\
    ("has_ramp" ∈ md_feature_columns md ->
     dict_get "has_ramp" (cfg_feature_importances cfg) = Some float_0_15) /\
    ("stairs_present" ∈ md_feature_columns md ->
     dict_get "stairs_present" (cfg_feature_importances cfg)
     = Some float_0_12) /\
    dict_get "random_flag_7" (cfg_feature_importances cfg) = None.
Proof.
  intros Hready Hnone.
  assert (Himp : importances_of (md_model md) (md_feature_columns md)
                 = inr (heuristic_importances (md_feature_columns md)))
    by (unfold importances_of; by rewrite Hnone).
  destruct (script_completes env root s md class_mapping g _ Hready Himp)
    as (tr & Hrun & _).
  destruct (heuristic_importances_spec (md_feature_columns md)) as [Hin Hrule].
  eexists _, _. split; [exact Hrun|]. split; [apply lookup_insert_eq|].
  simpl. split; [exact Hin|]. split; [exact Hrule|].
  unfold heuristic_importances. rewrite !fold_heuristic_get.
  split; [|split].
  - intros H. by rewrite decide_True.
  - intros H. by rewrite decide_True.
  - rewrite decide_False; [done | by intros [_ [=]]].
Qed.

Lemma heuristic_importances_assigned_witness :
  exists cfg s',
    script (Sample.env None) Sample.root (Sample.start Sample.plain_artifact)
    = (inr tt, s') /\
    files s' !! CONFIG_OUTPUT_PATH Sample.root = Some (FJson cfg) /\
    (forall name v,
       dict_get name (cfg_feature_importances cfg) = Some v ->
       name ∈ ["has_ramp"; "stairs_present"; "random_flag_7"]) /\
    (forall col,
       col ∈ ["has_ramp"; "stairs_present"; "random_flag_7"] ->
       heuristic_rule col (dict_get col (cfg_feature_importances cfg))) /\
    ("has_ramp" ∈ ["has_ramp"; "stairs_present"; "random_flag_7"] ->
     dict_get "has_ramp" (cfg_feature_importances cfg) = Some float_0_15) /\
    ("stairs_present" ∈ ["has_ramp"; "stairs_present"; "random_flag_7"] ->
     dict_get "stairs_present" (cfg_feature_importances cfg)
     = Some float_0_12) /\
    dict_get "random_flag_7" (cfg_feature_importances cfg) = None.
Proof.
  apply (heuristic_importances_assigned (Sample.env None) Sample.root
           (Sample.start Sample.plain_artifact) Sample.plain_artifact
           [(0%Z, "not_accessible"); (1%Z, "accessible")]
           (Sample.graph Sample.boosting)).
  - apply sample_ready. reflexivity.
  - reflexivity.
Defined.

(** *** The conversion call *)

Lemma keeps_files_file {A} p (m : M A) : keeps_files m -> keeps_file p m.
Proof. intros H s. by rewrite H. Qed.

Lemma keeps_file_bind {A B} p (m : M A) (f : A -> M B) :
  keeps_file p m -> (forall x, keeps_file p (f x)) -> keeps_file p (m ≫= f).
Proof.
  intros Hm Hf s. specialize (Hm s).
  destruct (bind_cases m f s) as [(x & s1 & H1 & ->) | (e & s1 & H1 & ->)];
    rewrite H1 in Hm; simpl in Hm.
  - by rewrite Hf.
  - done.
Qed.

Lemma keeps_file_write_file env p q c :
  p <> q -> keeps_file p (write_file env q c).
Proof.
  intros Hne s. unfold write_file. destruct (open_error env q); [done|].
  destruct (write_error env q) as [[e partial]|]; simpl;
    by rewrite lookup_insert_ne.
Qed.

Lemma test_event_after_conversion root g ev :
  test_event ev -> after_conversion_event root g ev.
Proof. by destruct ev. Qed.

Lemma after_conversion_calls root g tr :
  Forall (after_conversion_event root g) tr -> convert_calls tr = [].
Proof.
  induction 1 as [|ev tr Hev _ IH]; [done|].
  destruct ev; simpl in Hev; try contradiction; exact IH.
Qed.

(** Everything [main] does with the graph [g] that the converter returned:
    no further conversion, and what is written to the graph path is [g]. *)
Lemma after_conversion env root md class_mapping g :
  emits_only (after_conversion_event root g)
    (makedirs env (Path.dirname (ONNX_OUTPUT_PATH root));;
     makedirs env (Path.dirname (CONFIG_OUTPUT_PATH root));;
     write_file env (ONNX_OUTPUT_PATH root) (FOnnx g);;
     print (MOnnxSaved (ONNX_OUTPUT_PATH root));;
     feature_importances ←
       extract_importances (md_model md) (md_feature_columns md);
     write_file env (CONFIG_OUTPUT_PATH root)
       (FJson (written_config md class_mapping feature_importances));;
     print (MConfigSaved (CONFIG_OUTPUT_PATH root));;
     print MTesting;;
     try_except (test_inference env root (md_feature_columns md))
       test_handler;;
     print MDone).
Proof.
  assert (Himp : emits_only (after_conversion_event root g)
            (extract_importances (md_model md) (md_feature_columns md))).
  { apply (emits_only_weaken test_event);
      [apply test_event_after_conversion | apply extract_importances_events]. }
  assert (Htest : emits_only (after_conversion_event root g)
            (try_except (test_inference env root (md_feature_columns md))
               test_handler)).
  { apply emits_only_try.
    - apply (emits_only_weaken test_event);
        [apply test_event_after_conversion | apply test_inference_events].
    - intros e h. rewrite test_handler_report. intros [= <-].
      by apply emits_only_emit. }
  assert (Hne : CONFIG_OUTPUT_PATH root <> ONNX_OUTPUT_PATH root)
    by (intros H; by apply (output_paths_differ root)).
  repeat first
    [ by apply emits_only_makedirs
    | apply emits_only_write_file;
      [first [by intros _ | intros H; by destruct Hne] | done]
    | exact Himp
    | exact Htest
    | by apply emits_only_emit
    | apply emits_only_bind; [|intros ?] ].
Qed.

(** What follows the write of the graph leaves the graph file alone. *)
Lemma after_graph_write env root md class_mapping :
  keeps_file (ONNX_OUTPUT_PATH root)
    (print (MOnnxSaved (ONNX_OUTPUT_PATH root));;
     feature_importances ←
       extract_importances (md_model md) (md_feature_columns md);
     write_file env (CONFIG_OUTPUT_PATH root)
       (FJson (written_config md class_mapping feature_importances));;
     print (MConfigSaved (CONFIG_OUTPUT_PATH root));;
     print MTesting;;
     try_except (test_inference env root (md_feature_columns md))
       test_handler;;
     print MDone).
Proof.
  assert (Htest : keeps_files
            (try_except (test_inference env root (md_feature_columns md))
               test_handler)).
  { apply keeps_files_try; [apply test_inference_files|].
    intros e h. rewrite test_handler_report. by intros [= <-]. }
  repeat first
    [ apply keeps_file_write_file; apply output_paths_differ
    | apply keeps_files_file;
      first [ apply keeps_files_emit | apply extract_importances_files
            | exact Htest ]
    | apply keeps_file_bind; [|intros ?] ].
Qed.

(** The sample converter follows the [zipmap] option and the opset. *)
Lemma sample_converter_honours_zipmap : honours_zipmap Sample.converter.
Proof.
  intros model args g [= <-] Hz. simpl. by rewrite Hz.
Qed.

Lemma sample_converter_honours_opset : honours_opset Sample.converter.
Proof.
  intros model args g v [= <-] Hv. simpl. by rewrite Hv.
Qed.

(** C3.  Once the artifact is loaded, the run calls the converter exactly
    once: on the estimator, with one declared input [float_input] of 32-bit
    floats with an unbounded batch dimension and one dimension of the
    number of feature columns, with the opset given as 12, and with
    [zipmap] switched off for the estimator.  Whatever the run writes to the
    graph path is the graph that this call returned; when the call returns
    a graph and the graph file can be written, the file holds that graph
    when the run ends, and with a converter that honours the [zipmap]
    option and the opset its outputs are the label and a probability
    tensor, and its opset is 12. *)
Theorem conversion_call env root s md class_mapping args :
  files s !! MODEL_PATH root (files s) = Some (FPickle md) ->
  int_keys (default default_class_mapping (md_class_mapping md)) []
  = inr class_mapping ->
  args = {| initial_types :=
              [ ("float_input",
                 {| elem_type := Float32;
                    shape := [None; Some (length (md_feature_columns md))] |}) ];
            target_opset := Some 12%Z;
            options := [(IdOf (md_model md), [("zipmap", false)])] |} ->
  exists tr,
    trace (script env root s).2 = trace s ++ tr /\
    convert_calls tr = [(md_model md, args)] /\
    (forall p c,
       EWrite p c ∈ tr -> p = ONNX_OUTPUT_PATH root ->
       exists g,
         convert_sklearn env (md_model md) args = inr g /\ c = FOnnx g) /\
    (forall g,
       convert_sklearn env (md_model md) args = inr g ->
       makedirs_error env (Path.dirname (ONNX_OUTPUT_PATH root)) = None ->
       makedirs_error env (Path.dirname (CONFIG_OUTPUT_PATH root)) = None ->
       open_error env (ONNX_OUTPUT_PATH root) = None ->
       write_error env (ONNX_OUTPUT_PATH root) = None ->
       files (script env root s).2 !! ONNX_OUTPUT_PATH root = Some (FOnnx g) /\
       (honours_zipmap (convert_sklearn env) ->
        (onnx_outputs g).*2 = [LabelTensor; ProbabilityTensor]) /\
       (honours_opset (convert_sklearn env) -> onnx_opset g = 12%Z)).
Proof.
  intros Hart Hmap ->.
  unfold script, main.
  do 2 (erewrite bind_ok by reflexivity; cbn [files trace]).
  erewrite bind_ok by (by apply joblib_load_ok). cbn [files trace].
  cbn zeta.
  erewrite bind_ok by (unfold lift; by rewrite Hmap). cbn [files trace].
  do 6 (erewrite bind_ok by reflexivity; cbn [files trace]).
  change {| initial_types := _; target_opset := _; options := _ |}
    with (conversion_args (md_model md) (md_feature_columns md)).
  destruct (convert_sklearn env (md_model md)
              (conversion_args (md_model md) (md_feature_columns md)))
    as [e|g] eqn:Hconv.
  - erewrite bind_err by (by apply call_convert_sklearn_eq). cbn [snd trace].
    rewrite <- !app_assoc. eexists. split; [reflexivity|].
    split; [done|]. split; [|done].
    intros p c Hin.
    repeat (apply elem_of_app in Hin as [Hin | Hin];
            [by apply list_elem_of_singleton in Hin|]).
    by apply list_elem_of_singleton in Hin.
  - erewrite bind_ok by (by apply call_convert_sklearn_eq). cbn [files trace].
    match goal with
    | |- context [ trace (?m ?st).2 ] =>
        destruct ((after_conversion env root md class_mapping g
                   : emits_only _ m) st) as (tr & Htr & HP)
    end.
    rewrite Htr. cbn [trace]. rewrite <- !app_assoc.
    eexists. split; [reflexivity|]. split; [|split].
    + pose proof (after_conversion_calls root g tr HP) as Hc.
      unfold convert_calls in *. by rewrite !omap_app, Hc.
    + intros p c Hin Hp. exists g. split; [done|].
      repeat (apply elem_of_app in Hin as [Hin | Hin];
              [by apply list_elem_of_singleton in Hin|]).
      by apply (proj1 (Forall_forall _ _) HP _ Hin).
    + intros g' [= <-] Hd1 Hd2 Hf Hw. split; [|split].
      * erewrite bind_ok by (by apply makedirs_ok). cbn [files trace].
        erewrite bind_ok by (by apply makedirs_ok). cbn [files trace].
        erewrite bind_ok by (by apply write_file_ok). cbn [files trace].
        match goal with
        | |- files (?m ?st).2 !! _ = _ =>
            rewrite ((after_graph_write env root md class_mapping
                      : keeps_file _ m) st)
        end.
        apply lookup_insert_eq.
      * intros Hz. apply (Hz _ _ _ Hconv).
        unfold zipmap_option. cbn [conversion_args options dict_get].
        by rewrite decide_True.
      * intros Ho. by apply (Ho _ _ _ _ Hconv).
Qed.

Lemma conversion_call_witness :
  convert_calls
    (trace (script (Sample.env None) Sample.root
              (Sample.start Sample.plain_artifact)).2)
  = [ (Sample.boosting,
       {| initial_types :=
            [ ("float_input",
               {| elem_type := Float32; shape := [None; Some 3] |}) ];
          target_opset := Some 12%Z;
          options := [(IdOf Sample.boosting, [("zipmap", false)])] |}) ] /\
  files (script (Sample.env None) Sample.root
           (Sample.start Sample.plain_artifact)).2
    !! ONNX_OUTPUT_PATH Sample.root
  = Some (FOnnx (Sample.graph Sample.boosting)) /\
  (onnx_outputs (Sample.graph Sample.boosting)).*2
  = [LabelTensor; ProbabilityTensor] /\
  onnx_opset (Sample.graph Sample.boosting) = 12%Z.
Proof.
  destruct (conversion_call (Sample.env None) Sample.root
              (Sample.start Sample.plain_artifact) Sample.plain_artifact
              [(0%Z, "not_accessible"); (1%Z, "accessible")]
              _ eq_refl eq_refl eq_refl)
    as (tr & Htr & Hcalls & _ & Hgraph).
  destruct (Hgraph (Sample.graph Sample.boosting)
              eq_refl eq_refl eq_refl eq_refl eq_refl)
    as (Hfile & Hzipmap & Hopset).
  split; [|split; [|split]].
  - rewrite Htr. exact Hcalls.
  - exact Hfile.
  - exact (Hzipmap sample_converter_honours_zipmap).
  - exact (Hopset sample_converter_honours_opset).
Defined.

(** *** The artifact path *)



(** *** The test inference and the outcome of the run *)

Lemma same_outcome_bind {A B} (m : M A) (f f' : A -> M B) s :
  (forall x s1, same_outcome (f x s1) (f' x s1)) ->
  same_outcome ((m ≫= f) s) ((m ≫= f') s).
Proof.
  intros Hf. unfold mbind, M_bind.
  destruct (m s) as [[e|x] s1]; [done | apply Hf].
Qed.

Lemma guarded_test_outcome env env' root feature_columns s :
  same_outcome
    ((try_except (test_inference env root feature_columns) test_handler;;
      print MDone) s)
    ((try_except (test_inference env' root feature_columns) test_handler;;
      print MDone) s).
Proof.
  destruct (test_guarded env root feature_columns s) as (tr & H & _).
  destruct (test_guarded env' root feature_columns s) as (tr' & H' & _).
  erewrite !bind_ok by eassumption. done.
Qed.

Lemma runtime_irrelevant env ort root model_path s :
  same_outcome (main (with_runtime env ort) root model_path s)
               (main env root model_path s).
Proof.
  unfold main.
  repeat (apply same_outcome_bind; intros ? ?).
  apply guarded_test_outcome.
Qed.

(** C9.  An exception of the test inference is caught by the [try]
    statement, which reports it in one message and leaves the files as they
    are; a run that is ready completes with the graph and the configuration
    in place whatever inference runtime is installed, or none; and the
    result and the files of any run are the same for every inference
    runtime. *)
Theorem test_inference_harmless env root s :
  (forall feature_columns s0 e s1,
     test_inference env root feature_columns s0 = (inl e, s1) ->
     try_except (test_inference env root feature_columns) test_handler s0
     = (inr tt, {| files := files s0;
                   trace := trace s1 ++ [EPrint (report e)] |})) /\
  (forall md class_mapping g fi,
     Ready env root s md class_mapping g ->
     importances_of (md_model md) (md_feature_columns md) = inr fi ->
     exists s',
       script env root s = (inr tt, s') /\
       files s' !! ONNX_OUTPUT_PATH root = Some (FOnnx g) /\
       files s' !! CONFIG_OUTPUT_PATH root
       = Some (FJson (written_config md class_mapping fi)) /\
       last (trace s') = Some (EPrint MDone)) /\
  (forall ort,
     same_outcome (script (with_runtime env ort) root s) (script env root s)).
Proof.
  split; [|split].
  - intros feature_columns s0 e s1 He.
    destruct (test_guarded env root feature_columns s0) as (tr & -> & _ & Hr).
    by rewrite (Hr e s1 He).
  - intros md class_mapping g fi Hready Himp.
    destruct (script_completes env root s md class_mapping g fi Hready Himp)
      as (tr & Hrun & _ & _ & Hlast).
    eexists. split; [exact Hrun|]. cbn [files trace].
    split; [|split].
    + rewrite lookup_insert_ne by (intros H; by apply (output_paths_differ root)).
      apply lookup_insert_eq.
    + apply lookup_insert_eq.
    + rewrite last_app, Hlast. done.
  - intros ort. unfold script. apply runtime_irrelevant.
Qed.

(** *** Sample runs *)

(** With an inference runtime whose sessions fail, the [try] statement
    reports the error and completes. *)
Example broken_runtime_caught :
  try_except
    (test_inference (Sample.env (Some Sample.broken_runtime)) Sample.root
       Sample.columns)
    test_handler
    {| files :=
         {[ ONNX_OUTPUT_PATH Sample.root := FOnnx (Sample.graph Sample.boosting) ]};
       trace := [] |}
  = (inr tt,
     {| files :=
          {[ ONNX_OUTPUT_PATH Sample.root := FOnnx (Sample.graph Sample.boosting) ]};
        trace :=
          [ ESession "/srv/app/public/models/accessibility_model.onnx";
            ERun [("float_input", zeros_1 3)];
            EPrint (MTestError (RuntimeError "invalid dimensions")) ] |}).
Proof. reflexivity. Qed.

(** Without any of the three artifacts nothing is written. *)
Example no_artifact_run :
  script (Sample.env None) Sample.root {| files := ∅; trace := [] |}
  = (inl (FileNotFoundError
            "/srv/app/accessibility_model_3class_best_overall.joblib"),
     {| files := ∅;
        trace :=
          [ EPrint MLoading;
            EPrint (MModelPath
              "/srv/app/accessibility_model_3class_best_overall.joblib");
            ELoad "/srv/app/accessibility_model_3class_best_overall.joblib" ] |}).
Proof. reflexivity. Qed.

(** The second candidate is taken when the first is missing. *)
Example worldwide_fallback md :
  MODEL_PATH Sample.root
    {[ "/srv/app/accessibility_model_worldwide.joblib" := FPickle md;
       "/srv/app/accessibility_model_3class_best_overall.joblib" := FPickle md ]}
  = "/srv/app/accessibility_model_worldwide.joblib".
Proof. reflexivity. Qed.

(** * Further properties of the run *)

(** ** What a run can leave behind *)

Lemma joblib_load_files p : keeps_files (joblib_load p).
Proof.
  intros s. unfold joblib_load.
  by destruct (files s !! p) as [[]|].
Qed.

Lemma call_convert_sklearn_files env model args :
  keeps_files (call_convert_sklearn env model args).
Proof. done. Qed.

Lemma makedirs_files env p : keeps_files (makedirs env p).
Proof.
  unfold makedirs. apply keeps_files_bind; [apply keeps_files_emit|].
  intros _. by destruct (makedirs_error env p).
Qed.

(** A step that keeps the files either stops the run with the files as
    they are, or hands over to the rest of the run. *)
Lemma bind_keeps {A B} (m : M A) (f : A -> M B) s :
  keeps_files m ->
  (exists e s1, (m ≫= f) s = (inl e, s1) /\ files s1 = files s) \/
  (exists x s1, (m ≫= f) s = f x s1 /\ files s1 = files s).
Proof.
  intros Hm. specialize (Hm s).
  destruct (bind_cases m f s) as [(x & s1 & H1 & ->) | (e & s1 & H1 & ->)];
    rewrite H1 in Hm; simpl in Hm.
  - right. by exists x, s1.
  - left. by exists e, s1.
Qed.

(** Writing a file fails at [open] and changes nothing, or fails after the
    file was truncated and leaves the bytes written so far, or stores the
    content. *)
Lemma bind_write {B} env p c (f : unit -> M B) s :
  (exists e, (write_file env p c ≫= f) s = (inl e, s)) \/
  (exists e partial s1,
     (write_file env p c ≫= f) s = (inl e, s1) /\
     files s1 = <[p := FRaw partial]> (files s)) \/
  (exists s1, (write_file env p c ≫= f) s = f tt s1 /\
              files s1 = <[p := c]> (files s)).
Proof.
  unfold mbind, M_bind, write_file. destruct (open_error env p) as [e|].
  - left. by exists e.
  - right. destruct (write_error env p) as [[e partial]|].
    + left. by eexists _, _, _.
    + right. by eexists.
Qed.

(** One step of a run that keeps the files: the run stops there, or goes
    on from a state with the same files. *)
Ltac keeps_files_step :=
  first [ apply keeps_files_emit | apply keeps_files_lift
        | apply joblib_load_files | apply call_convert_sklearn_files
        | apply makedirs_files | apply extract_importances_files ].

Ltac keep_step :=
  lazymatch goal with
  | |- context [ (?m ≫= ?f) ?st ] =>
      let Hf := fresh "Hf" in
      destruct (bind_keeps m f st ltac:(keeps_files_step))
        as [(? & ? & -> & Hf) | (? & ? & -> & Hf)];
      cbn [fst snd]
  end.

(** Follows the equations between the files of successive states. *)
Ltac chase_files :=
  repeat match goal with
         | H : files ?a = _ |- context [files ?a] => rewrite H
         end;
  reflexivity.

Ltac write_step :=
  lazymatch goal with
  | |- context [ (write_file ?env ?p ?c ≫= ?f) ?st ] =>
      let Hf := fresh "Hf" in
      destruct (bind_write env p c f st)
        as [(? & ->) | [(? & ? & ? & -> & Hf) | (? & -> & Hf)]];
      cbn [fst snd]
  end.

(** The five ways in which a run can end. *)
Lemma run_outcome_cases env root s :
  (exists e,
     (script env root s).1 = inl e /\
     files (script env root s).2 = files s) \/
  (exists e partial,
     (script env root s).1 = inl e /\
     files (script env root s).2
     = <[ONNX_OUTPUT_PATH root := FRaw partial]> (files s)) \/
  (exists e g,
     (script env root s).1 = inl e /\
     files (script env root s).2
     = <[ONNX_OUTPUT_PATH root := FOnnx g]> (files s)) \/
  (exists e g partial,
     (script env root s).1 = inl e /\
     files (script env root s).2
     = <[CONFIG_OUTPUT_PATH root := FRaw partial]>
         (<[ONNX_OUTPUT_PATH root := FOnnx g]> (files s))) \/
  (exists g cfg,
     (script env root s).1 = inr tt /\
     files (script env root s).2
     = <[CONFIG_OUTPUT_PATH root := FJson cfg]>
         (<[ONNX_OUTPUT_PATH root := FOnnx g]> (files s))).
Proof.
  unfold script, main.
  do 2 (keep_step; [left; eexists; split; [done | chase_files]|]).
  keep_step;
    [left; eexists; split; [done | chase_files]|].
  cbn zeta.
  keep_step;
    [left; eexists; split; [done | chase_files]|].
  do 6 (keep_step;
        [left; eexists; split; [done | chase_files]|]).
  keep_step;
    [left; eexists; split; [done | chase_files]|].
  do 2 (keep_step;
        [left; eexists; split; [done | chase_files]|]).
  write_step;
    [ left; eexists; split; [done | chase_files]
    | right; left; eexists _, _; split; [done | chase_files] |].
  do 2 right.
  keep_step;
    [left; eexists _, _; split; [done | chase_files]|].
  keep_step;
    [left; eexists _, _; split; [done | chase_files]|].
  write_step;
    [ left; eexists _, _; split; [done | chase_files]
    | right; left; eexists _, _, _; split; [done | chase_files] |].
  do 2 right.
  do 2 (erewrite bind_ok by reflexivity; cbn [files trace]).
  match goal with
  | |- context [ (try_except (test_inference _ _ ?c) _ ≫= _) ?st ] =>
      destruct (test_guarded env root c st) as (tr & Hg & _)
  end.
  erewrite bind_ok by exact Hg. cbn [files trace print emit fst snd].
  eexists _, _. split; [done | chase_files].
Qed.

(** X1.  A run ends in one of five ways: with an exception and the files as
    they were; with an exception and the graph file cut short, when writing
    it failed after it was opened; with an exception and the graph file
    written; with an exception, the graph file written and the
    configuration file cut short; or normally, with the graph file and then
    the configuration file written.  Nothing else changes in any of them. *)
Theorem run_outcomes env root s :
  (exists e,
     (script env root s).1 = inl e /\
     files (script env root s).2 = files s) \/
  (exists e partial,
     (script env root s).1 = inl e /\
     files (script env root s).2
     = <[ONNX_OUTPUT_PATH root := FRaw partial]> (files s)) \/
  (exists e g,
     (script env root s).1 = inl e /\
     files (script env root s).2
     = <[ONNX_OUTPUT_PATH root := FOnnx g]> (files s)) \/
  (exists e g partial,
     (script env root s).1 = inl e /\
     files (script env root s).2
     = <[CONFIG_OUTPUT_PATH root := FRaw partial]>
         (<[ONNX_OUTPUT_PATH root := FOnnx g]> (files s))) \/
  (exists g cfg,
     (script env root s).1 = inr tt /\
     files (script env root s).2
     = <[CONFIG_OUTPUT_PATH root := FJson cfg]>
         (<[ONNX_OUTPUT_PATH root := FOnnx g]> (files s))).
Proof. apply run_outcome_cases. Qed.

(** X2.  A run changes no file other than the two output files; the model
    artifact, in particular, is only read. *)
Theorem other_files_untouched env root s p :
  p <> ONNX_OUTPUT_PATH root -> p <> CONFIG_OUTPUT_PATH root ->
  files (script env root s).2 !! p = files s !! p.
Proof.
  intros Ho Hc.
  destruct (run_outcome_cases env root s)
    as [(e & _ & ->) | [(e & b & _ & ->) | [(e & g & _ & ->)
       | [(e & g & b & _ & ->) | (g & cfg & _ & ->)]]]].
  - done.
  - by rewrite lookup_insert_ne.
  - by rewrite lookup_insert_ne.
  - by rewrite !lookup_insert_ne.
  - by rewrite !lookup_insert_ne.
Qed.

Lemma other_files_untouched_witness :
  files (script (Sample.env None) Sample.root
           (Sample.start Sample.plain_artifact)).2
    !! "/srv/app/accessibility_model_geographic.joblib"
  = Some (FPickle Sample.plain_artifact).
Proof.
  rewrite (other_files_untouched (Sample.env None) Sample.root
             (Sample.start Sample.plain_artifact)
             "/srv/app/accessibility_model_geographic.joblib").
  - reflexivity.
  - discriminate.
  - discriminate.
Defined.

(** X3.  A run that returns normally has written both files: the graph and
    the configuration are in place. *)
Theorem normal_return_has_outputs env root s :
  (script env root s).1 = inr tt ->
  exists g cfg,
    files (script env root s).2 !! ONNX_OUTPUT_PATH root = Some (FOnnx g) /\
    files (script env root s).2 !! CONFIG_OUTPUT_PATH root = Some (FJson cfg).
Proof.
  intros Hok.
  destruct (run_outcome_cases env root s)
    as [(e & He & _) | [(e & b & He & _) | [(e & g & He & _)
       | [(e & g & b & He & _) | (g & cfg & _ & ->)]]]].
  - congruence.
  - congruence.
  - congruence.
  - congruence.
  - exists g, cfg. split; [|apply lookup_insert_eq].
    rewrite lookup_insert_ne by (intros H; by apply (output_paths_differ root)).
    apply lookup_insert_eq.
Qed.

Lemma normal_return_has_outputs_witness :
  exists g cfg,
    files (script (Sample.env (Some Sample.broken_runtime)) Sample.root
             (Sample.start Sample.forest_artifact)).2
      !! ONNX_OUTPUT_PATH Sample.root = Some (FOnnx g) /\
    files (script (Sample.env (Some Sample.broken_runtime)) Sample.root
             (Sample.start Sample.forest_artifact)).2
      !! CONFIG_OUTPUT_PATH Sample.root = Some (FJson cfg).
Proof.
  apply (normal_return_has_outputs (Sample.env (Some Sample.broken_runtime))
           Sample.root (Sample.start Sample.forest_artifact)).
  reflexivity.
Defined.

(** ** Failures before anything is written *)

(** X4.  When the converter rejects the estimator, the run ends with the
    converter's exception right after the call: no directory is created and
    no file is written. *)
Theorem conversion_failure env root s md class_mapping e :
  files s !! MODEL_PATH root (files s) = Some (FPickle md) ->
  int_keys (default default_class_mapping (md_class_mapping md)) []
  = inr class_mapping ->
  convert_sklearn env (md_model md)
    (conversion_args (md_model md) (md_feature_columns md)) = inl e ->
  script env root s
  = (inl e,
     {| files := files s;
        trace :=
          trace s
          ++ [ EPrint MLoading;
               EPrint (MModelPath (MODEL_PATH root (files s)));
               ELoad (MODEL_PATH root (files s));
               EPrint (MModelType (md_model_name md));
               EPrint (MNumClasses (default 2%Z (md_n_classes md)));
               EPrint (MClassMapping class_mapping);
               EPrint (MNumFeatures (length (md_feature_columns md)));
               EPrint (MMetrics (md_metrics md));
               EPrint MConverting;
               EConvert (md_model md)
                 (conversion_args (md_model md) (md_feature_columns md)) ] |}).
Proof.
  intros Hart Hmap Hconv. unfold script, main.
  do 2 (erewrite bind_ok by reflexivity; cbn [files trace]).
  erewrite bind_ok by (by apply joblib_load_ok). cbn [files trace].
  cbn zeta.
  erewrite bind_ok by (unfold lift; by rewrite Hmap). cbn [files trace].
  do 6 (erewrite bind_ok by reflexivity; cbn [files trace]).
  erewrite bind_err by (by apply call_convert_sklearn_eq). cbn [files trace].
  by rewrite <- !app_assoc.
Qed.

Lemma conversion_failure_witness :
  (script
     {| convert_sklearn := fun _ _ => inl (ConversionError "unsupported");
        makedirs_error := fun _ => None;
        open_error := fun _ => None;
        write_error := fun _ => None;
        onnxruntime := None |}
     Sample.root (Sample.start Sample.plain_artifact)).1
  = inl (ConversionError "unsupported").
Proof.
  rewrite (conversion_failure _ Sample.root
             (Sample.start Sample.plain_artifact) Sample.plain_artifact
             [(0%Z, "not_accessible"); (1%Z, "accessible")]
             (ConversionError "unsupported")).
  - reflexivity.
  - reflexivity.
  - reflexivity.
  - reflexivity.
Defined.

(** The keys of the class mapping: [int_keys] fails exactly at the first key
    that is no integer, with a [ValueError] for it. *)
Lemma int_keys_error items acc e :
  int_keys items acc = inl e <->
  exists pre k v post,
    items = pre ++ (k, v) :: post /\
    Forall (fun kv => exists z, py_int kv.1 = inr z) pre /\
    py_int k = inl e.
Proof.
  revert acc. induction items as [|[k v] items IH]; intros acc; simpl.
  - split; [done | intros (pre & k & v & post & H & _); by destruct pre].
  - destruct (py_int k) as [e'|z] eqn:Hk.
    + split.
      * intros [= <-]. exists [], k, v, items. by repeat split.
      * intros (pre & k' & v' & post & H & Hpre & Hk').
        destruct pre as [|[k0 v0] pre]; simpl in H.
        -- injection H as <- <- <-. congruence.
        -- injection H as <- <- ->. apply Forall_cons in Hpre as [[z Hz] _].
           simpl in Hz. congruence.
    + rewrite IH. split.
      * intros (pre & k' & v' & post & -> & Hpre & Hk').
        exists ((k, v) :: pre), k', v', post. repeat split; [|done].
        apply Forall_cons. split; [by exists z | done].
      * intros (pre & k' & v' & post & H & Hpre & Hk').
        destruct pre as [|[k0 v0] pre]; simpl in H.
        -- injection H as <- <- <-. congruence.
        -- injection H as <- <- ->. apply Forall_cons in Hpre as [_ Hpre].
           by exists pre, k', v', post.
Qed.

(** X5.  A class mapping with a key that is no integer stops the run with
    the [ValueError] of the first such key, straight after loading: the
    converter is not called and nothing is written. *)
Theorem bad_mapping_key env root s md pre k v post e :
  files s !! MODEL_PATH root (files s) = Some (FPickle md) ->
  default default_class_mapping (md_class_mapping md)
  = pre ++ (k, v) :: post ->
  Forall (fun kv => exists z, py_int kv.1 = inr z) pre ->
  py_int k = inl e ->
  script env root s
  = (inl e,
     {| files := files s;
        trace :=
          trace s
          ++ [ EPrint MLoading;
               EPrint (MModelPath (MODEL_PATH root (files s)));
               ELoad (MODEL_PATH root (files s)) ] |}).
Proof.
  intros Hart Hitems Hpre Hk.
  assert (Herr : int_keys (default default_class_mapping (md_class_mapping md))
                   [] = inl e).
  { apply int_keys_error. by exists pre, k, v, post. }
  unfold script, main.
  do 2 (erewrite bind_ok by reflexivity; cbn [files trace]).
  erewrite bind_ok by (by apply joblib_load_ok). cbn [files trace].
  cbn zeta.
  erewrite bind_err by (unfold lift; by rewrite Herr).
  by rewrite <- !app_assoc.
Qed.

Lemma bad_mapping_key_witness :
  (script (Sample.env None) Sample.root
     (Sample.start
        (Sample.artifact Sample.boosting (Some 2%Z)
           (Some [(KStr "0", "not_accessible"); (KStr "one", "accessible")])))).1
  = inl (ValueError "one").
Proof.
  rewrite (bad_mapping_key (Sample.env None) Sample.root _
             (Sample.artifact Sample.boosting (Some 2%Z)
                (Some [(KStr "0", "not_accessible"); (KStr "one", "accessible")]))
             [(KStr "0", "not_accessible")] (KStr "one") "accessible" []
             (ValueError "one")).
  - reflexivity.
  - reflexivity.
  - reflexivity.
  - apply Forall_singleton. exists 0%Z. reflexivity.
  - reflexivity.
Defined.

(** X6.  The class mapping with integer keys: an index has the value of the
    last stored item whose key is that integer once normalized, so that the
    keys [1] and ["1"] are one key, and no value otherwise. *)
Theorem int_keys_lookup items class_mapping z :
  int_keys items [] = inr class_mapping ->
  dict_get z class_mapping = last_with_key z items.
Proof.
  assert (H : forall acc,
    int_keys items acc = inr class_mapping ->
    dict_get z class_mapping
    = match last_with_key z items with
      | Some w => Some w
      | None => dict_get z acc
      end).
  { induction items as [|[k v] items IH]; intros acc; simpl.
    - by intros [= ->].
    - destruct (py_int k) as [e|z'] eqn:Hk; [done|].
      intros Hrest. rewrite (IH _ Hrest).
      destruct (last_with_key z items); [done|].
      rewrite dict_get_set.
      destruct (decide (z = z')) as [->|Hne].
      + by rewrite decide_True.
      + by rewrite decide_False. }
  intros Hk. rewrite (H [] Hk). by destruct (last_with_key z items).
Qed.

Lemma int_keys_lookup_witness :
  dict_get 1%Z [(0%Z, "no"); (1%Z, "yes")]
  = last_with_key 1%Z [(KInt 0, "no"); (KStr "1", "maybe"); (KInt 1, "yes")].
Proof.
  apply (int_keys_lookup
           [(KInt 0, "no"); (KStr "1", "maybe"); (KInt 1, "yes")]
           [(0%Z, "no"); (1%Z, "yes")] 1%Z).
  reflexivity.
Defined.

(** ** Importance vectors of another length *)

(** The native loop raises exactly when a strictly positive importance lies
    beyond the feature columns, and then an [IndexError]. *)
Lemma native_importances_IndexError feature_columns importances idx acc e :
  native_importances feature_columns idx importances acc = inl e <->
  e = IndexError /\
  exists i v, importances !! i = Some v /\ float_pos v /\
              length feature_columns <= idx + i.
Proof.
  revert idx acc.
  induction importances as [|w rest IH]; intros idx acc; simpl.
  - split; [done | by intros (_ & i & v & H & _)].
  - destruct (float_gt w float_zero) eqn:Hw.
    + destruct (feature_columns !! idx) as [c|] eqn:Hc.
      * rewrite IH. apply lookup_lt_Some in Hc. split.
        -- intros (-> & i & v & Hi & Hv & Hlen). split; [done|].
           exists (S i), v. repeat split; [done | done | lia].
        -- intros (-> & [|i] & v & Hi & Hv & Hlen); [lia|].
           split; [done|]. exists i, v. repeat split; [done | done | lia].
      * apply lookup_ge_None in Hc. split.
        -- intros [= <-]. split; [done|]. exists 0, w.
           repeat split; [by apply float_gt_zero | lia].
        -- by intros (-> & _).
    + rewrite IH. split.
      * intros (-> & i & v & Hi & Hv & Hlen). split; [done|].
        exists (S i), v. repeat split; [done | done | lia].
      * intros (-> & [|i] & v & Hi & Hv & Hlen).
        -- injection Hi as ->. apply float_gt_zero in Hv. congruence.
        -- split; [done|]. exists i, v. repeat split; [done | done | lia].
Qed.

Lemma extract_importances_error model feature_columns s e :
  importances_of model feature_columns = inl e ->
  exists tr,
    extract_importances model feature_columns s
    = (inl e, {| files := files s; trace := trace s ++ tr |}) /\
    Forall test_event tr.
Proof.
  intros Hfi.
  pose proof (extract_importances_result model feature_columns s) as Hr.
  pose proof (extract_importances_files model feature_columns s) as Hf.
  destruct (extract_importances_events model feature_columns s)
    as (tr & Htr & HP).
  exists tr. split; [|done].
  destruct (extract_importances model feature_columns s) as [r [fs tr1]].
  simpl in *. by rewrite Hr, Hfi, Hf, Htr.
Qed.

(** X7.  When the estimator has a strictly positive importance at an index
    beyond the feature columns, the run ends with an [IndexError] after the
    graph file is written and before the configuration is: the graph is the
    only file written. *)
Theorem importances_beyond_columns env root s md class_mapping g
    importances i v :
  Ready env root s md class_mapping g ->
  feature_importances_ (md_model md) = Some importances ->
  importances !! i = Some v -> float_pos v ->
  length (md_feature_columns md) <= i ->
  exists tr,
    script env root s
    = (inl IndexError,
       {| files := <[ONNX_OUTPUT_PATH root := FOnnx g]> (files s);
          trace := trace s ++ tr |}) /\
    writes tr = [ONNX_OUTPUT_PATH root].
Proof.
  intros [Hart Hmap Hconv Hd1 Hd2 Hf1 Hf2 Hwr1 Hwr2] Hnative Hi Hv Hlen.
  assert (Himp : importances_of (md_model md) (md_feature_columns md)
                 = inl IndexError).
  { unfold importances_of. rewrite Hnative.
    apply native_importances_IndexError. split; [done|]. by exists i, v. }
  unfold script, main.
  do 2 (erewrite bind_ok by reflexivity; cbn [files trace]).
  erewrite bind_ok by (by apply joblib_load_ok). cbn [files trace].
  cbn zeta.
  erewrite bind_ok by (unfold lift; by rewrite Hmap). cbn [files trace].
  do 6 (erewrite bind_ok by reflexivity; cbn [files trace]).
  erewrite bind_ok by (by apply call_convert_sklearn_eq). cbn [files trace].
  erewrite bind_ok by (by apply makedirs_ok). cbn [files trace].
  erewrite bind_ok by (by apply makedirs_ok). cbn [files trace].
  erewrite bind_ok by (by apply write_file_ok). cbn [files trace].
  erewrite bind_ok by reflexivity; cbn [files trace].
  match goal with
  | |- context [ (extract_importances _ _ ≫= _) ?st ] =>
      destruct (extract_importances_error (md_model md) (md_feature_columns md)
                  st IndexError Himp)
        as (tr1 & Hex & [Hc1 Hw1]%test_events_quiet)
  end.
  erewrite bind_err by exact Hex. cbn [files trace].
  rewrite <- !app_assoc. eexists. split; [reflexivity|].
  unfold writes in *. by rewrite !omap_app, Hw1.
Qed.

Lemma importances_beyond_columns_witness :
  exists tr,
    script (Sample.env None) Sample.root
      (Sample.start (Sample.artifact Sample.overlong_forest None None))
    = (inl IndexError,
       {| files :=
            <[ONNX_OUTPUT_PATH Sample.root :=
                FOnnx (Sample.graph Sample.overlong_forest)]>
              (files (Sample.start
                        (Sample.artifact Sample.overlong_forest None None)));
          trace :=
            trace (Sample.start
                     (Sample.artifact Sample.overlong_forest None None))
            ++ tr |}) /\
    writes tr = [ONNX_OUTPUT_PATH Sample.root].
Proof.
  apply (importances_beyond_columns (Sample.env None) Sample.root
           (Sample.start (Sample.artifact Sample.overlong_forest None None))
           (Sample.artifact Sample.overlong_forest None None)
           [(0%Z, "not_accessible"); (1%Z, "accessible")]
           (Sample.graph Sample.overlong_forest)
           [float_zero; float_zero; float_zero; float_0_15] 3 float_0_15).
  - apply sample_ready. reflexivity.
  - reflexivity.
  - reflexivity.
  - exact I.
  - simpl. lia.
Defined.

(** X8.  An importance vector shorter than the feature columns is accepted:
    the run completes, the map is built from the columns that the vector
    covers, and a name that stands only at indices beyond the vector has no
    entry. *)
Theorem shorter_importances env root s md class_mapping g importances :
  Ready env root s md class_mapping g ->
  feature_importances_ (md_model md) = Some importances ->
  length importances <= length (md_feature_columns md) ->
  exists cfg s',
    script env root s = (inr tt, s') /\
    files s' !! CONFIG_OUTPUT_PATH root = Some (FJson cfg) /\
    (forall name v,
       dict_get name (cfg_feature_importances cfg) = Some v <->
       exists i, last_positive (md_feature_columns md) importances name i v) /\
    (forall name,
       (forall i, md_feature_columns md !! i = Some name ->
                  length importances <= i) ->
       dict_get name (cfg_feature_importances cfg) = None).
Proof.
  intros Hready Hnative Hlen.
  destruct (native_importances_spec (md_feature_columns md) importances Hlen)
    as (fi & Hfi & Hspec).
  assert (Himp : importances_of (md_model md) (md_feature_columns md) = inr fi)
    by (unfold importances_of; by rewrite Hnative).
  destruct (script_completes env root s md class_mapping g fi Hready Himp)
    as (tr & Hrun & _).
  eexists _, _. split; [exact Hrun|]. split; [apply lookup_insert_eq|].
  simpl. split; [exact Hspec|].
  intros name Hbeyond. destruct (dict_get name fi) as [v|] eqn:Hg; [|done].
  apply Hspec in Hg as (i & Hc & Hv & _).
  apply Hbeyond in Hc. apply lookup_lt_Some in Hv. lia.
Qed.

Lemma shorter_importances_witness :
  exists cfg s',
    script (Sample.env None) Sample.root
      (Sample.start (Sample.artifact Sample.short_forest None None))
    = (inr tt, s') /\
    files s' !! CONFIG_OUTPUT_PATH Sample.root = Some (FJson cfg) /\
    (forall name v,
       dict_get name (cfg_feature_importances cfg) = Some v <->
       exists i, last_positive Sample.columns [float_0_15] name i v) /\
    (forall name,
       (forall i, Sample.columns !! i = Some name -> length [float_0_15] <= i) ->
       dict_get name (cfg_feature_importances cfg) = None).
Proof.
  apply (shorter_importances (Sample.env None) Sample.root
           (Sample.start (Sample.artifact Sample.short_forest None None))
           (Sample.artifact Sample.short_forest None None)
           [(0%Z, "not_accessible"); (1%Z, "accessible")]
           (Sample.graph Sample.short_forest)
           [float_0_15]).
  - apply sample_ready. reflexivity.
  - reflexivity.
  - simpl. lia.
Defined.

(** * Further properties of the encoding description *)

Section EncodingMore.
Import Str StrFacts.

Lemma fold_has_features_list cols encoding :
  has_features (fold_left encoding_step cols encoding)
  = has_features encoding
    ++ ((fun c => {| column := c; tag := "tags." +:+ replace c "has_" "" |})
        <$> List.filter (fun c => startswith c "has_") cols).
Proof.
  revert encoding. induction cols as [|c cols IH]; intros encoding; simpl.
  - by rewrite List.app_nil_r.
  - rewrite IH.
    destruct (step_cases c) as [H | [(H & t & v & Hs & _) | [H Hu]]]; rewrite H.
    + rewrite step_has_feature by done. simpl. by rewrite <- List.app_assoc.
    + by destruct (step_categorical encoding c t v H Hs) as [-> _].
    + by rewrite step_skipped.
Qed.

Lemma step_categorical_sound encoding c t v col :
  categorical (encoding_step encoding c) t v = Some col ->
  categorical encoding t v = Some col \/
  (col = c /\ c = t +:+ "_" +:+ v /\ ~ Substring "_" t /\
   startswith c "has_" = false).
Proof.
  destruct (step_cases c) as [Hh | [(Hh & t' & v' & Hs & Hc & Ht') | [Hh Hu]]].
  - rewrite step_has_feature by done. by left.
  - destruct (step_categorical encoding c t' v' Hh Hs) as [_ ->].
    destruct (decide (t = t' /\ v = v')) as [[-> ->]|]; [|by left].
    intros [= <-]. by right.
  - rewrite step_skipped by done. by left.
Qed.

Lemma fold_categorical_sound cols encoding t v col :
  categorical (fold_left encoding_step cols encoding) t v = Some col ->
  categorical encoding t v = Some col \/
  (col ∈ cols /\ col = t +:+ "_" +:+ v /\ ~ Substring "_" t /\
   startswith col "has_" = false).
Proof.
  revert encoding. induction cols as [|c cols IH]; intros encoding; simpl.
  - by left.
  - intros [H | (Hin & Hrest)]%IH.
    + apply step_categorical_sound in H as [H | (-> & Hrest)]; [by left|].
      right. split; [apply elem_of_cons; by left | done].
    + right. split; [apply elem_of_cons; by right | done].
Qed.

(** Where [old] does not occur, [replace] changes nothing. *)
Lemma replace_go_absent old new s :
  old <> "" -> ~ Substring old s -> replace_go old new 0 s = s.
Proof.
  intros Hold. induction s as [|c s IH]; intros Hno; [done|].
  cbn [replace_go].
  destruct (startswith (String c s) old) eqn:Hs.
  { apply startswith_spec in Hs as [r Hr]. destruct Hno.
    exists "", r. by rewrite Hr. }
  rewrite IH; [done|].
  intros (pre & post & ->). apply Hno. by exists (String c pre), post.
Qed.

Lemma replace_has_prefix rest :
  ~ Substring "has_" rest -> replace ("has_" +:+ rest) "has_" "" = rest.
Proof.
  intros Hno. unfold replace. simpl. rewrite startswith_nil.
  by apply replace_go_absent.
Qed.
End EncodingMore.

(** X9.  The presence-flag list holds one entry for every feature column
    that starts with [has_], in the order of the feature columns and as often
    as the column occurs; the tag of an entry is [tags.] followed by the
    column name without its occurrences of [has_]. *)
Theorem has_features_in_column_order useful_features feature_columns :
  has_features (generate_encoding_info useful_features feature_columns)
  = (fun c => {| column := c;
                 tag := "tags." +:+ Str.replace c "has_" "" |})
    <$> List.filter (fun c => Str.startswith c "has_") feature_columns.
Proof. apply fold_has_features_list. Qed.

(** X10.  Every entry of [categorical_features] decodes to a feature column:
    the column stored under [tag_name] and [value] is the feature column
    [tag_name_value], it does not start with [has_], and [tag_name] has no
    underscore. *)
Theorem categorical_entry_sound useful_features feature_columns
    tag_name value inner col :
  dict_get tag_name
    (categorical_features
       (generate_encoding_info useful_features feature_columns)) = Some inner ->
  dict_get value inner = Some col ->
  col ∈ feature_columns /\
  col = tag_name +:+ "_" +:+ value /\
  ~ Str.Substring "_" tag_name /\
  ~ (exists rest, col = "has_" +:+ rest).
Proof.
  intros Hinner Hcol.
  assert (Hcat : categorical
            (generate_encoding_info useful_features feature_columns)
            tag_name value = Some col).
  { unfold categorical. by rewrite Hinner. }
  apply fold_categorical_sound in Hcat as [Hcat | (Hin & Heq & Ht & Hh)].
  - done.
  - repeat split; try done.
    intros Hp%StrFacts.startswith_spec. congruence.
Qed.

Lemma categorical_entry_sound_witness :
  "amenity_cafe" ∈ ["has_elevator"; "amenity_cafe"; "wheelchair"] /\
  "amenity_cafe" = "amenity" +:+ "_" +:+ "cafe" /\
  ~ Str.Substring "_" "amenity" /\
  ~ (exists rest, "amenity_cafe" = "has_" +:+ rest).
Proof.
  apply (categorical_entry_sound []
           ["has_elevator"; "amenity_cafe"; "wheelchair"]
           "amenity" "cafe" [("cafe", "amenity_cafe")] "amenity_cafe").
  - reflexivity.
  - reflexivity.
Defined.

(** X11.  For a column [has_<rest>] whose remainder holds no further [has_],
    the recorded tag is [tags.<rest>]: the prefix alone is stripped. *)
Theorem has_feature_simple_tag useful_features feature_columns rest :
  "has_" +:+ rest ∈ feature_columns ->
  ~ Str.Substring "has_" rest ->
  {| column := "has_" +:+ rest; tag := "tags." +:+ rest |}
    ∈ has_features (generate_encoding_info useful_features feature_columns).
Proof.
  intros Hin Hno.
  pose proof (has_feature_recorded useful_features feature_columns
                ("has_" +:+ rest) Hin) as H.
  rewrite replace_has_prefix in H by done. apply H. by exists rest.
Qed.

Lemma has_feature_simple_tag_witness :
  {| column := "has_elevator"; tag := "tags.elevator" |}
    ∈ has_features
        (generate_encoding_info [] ["has_elevator"; "amenity_cafe"]).
Proof.
  apply (has_feature_simple_tag [] ["has_elevator"; "amenity_cafe"] "elevator").
  - apply list_elem_of_In. simpl. tauto.
  - apply StrFacts.contains_false. reflexivity.
Defined.

(** * Further properties of the test inference *)

Lemma import_onnxruntime_ok env ort s :
  onnxruntime env = Some ort -> import_onnxruntime env s = (inr ort, s).
Proof. intros H. unfold import_onnxruntime. by rewrite H. Qed.

Lemma inference_session_ok ort p c session s :
  files s !! p = Some c -> InferenceSession ort c = inr session ->
  inference_session ort p s
  = (inr session, {| files := files s; trace := trace s ++ [ESession p] |}).
Proof. intros Hc Hs. unfold inference_session. by rewrite Hc, Hs. Qed.

(** X12.  Without an inference runtime the test is skipped with one message:
    the graph file is not opened and no inference is run. *)
Theorem test_without_runtime env root feature_columns s :
  onnxruntime env = None ->
  try_except (test_inference env root feature_columns) test_handler s
  = (inr tt, {| files := files s; trace := trace s ++ [EPrint MNoRuntime] |}).
Proof.
  intros Hnone.
  assert (Hbody : test_inference env root feature_columns s
                  = (inl (ImportError "onnxruntime"), s)).
  { unfold test_inference. apply bind_err.
    unfold import_onnxruntime. by rewrite Hnone. }
  by rewrite (try_except_caught _ _ _ _ _ _ Hbody (test_handler_report _)).
Qed.

Lemma test_without_runtime_witness :
  try_except (test_inference (Sample.env None) Sample.root Sample.columns)
    test_handler {| files := ∅; trace := [] |}
  = (inr tt, {| files := ∅; trace := [] ++ [EPrint MNoRuntime] |}).
Proof.
  apply (test_without_runtime (Sample.env None) Sample.root Sample.columns
           {| files := ∅; trace := [] |}).
  reflexivity.
Defined.

Section TestInference.
Variables (env : Env) (root : string) (feature_columns : list string).
Variables (s : State) (ort : OrtModule) (c : FileContent) (session : Session).
Variables (input_name : string) (other_inputs : list string).
Hypothesis Hort : onnxruntime env = Some ort.
Hypothesis Hfile : files s !! ONNX_OUTPUT_PATH root = Some c.
Hypothesis Hsession : InferenceSession ort c = inr session.
Hypothesis Hinputs : get_inputs session = input_name :: other_inputs.

(** The test inference up to the call of [session.run]. *)
Lemma test_inference_until_run :
  test_inference env root feature_columns s
  = (results ←
       lift (session_run ort session
               [(input_name, zeros_1 (length feature_columns))]);
     print MTestOk;;
     prediction ← index results 0;
     print (MPrediction prediction);;
     probabilities ← index results 1;
     print (MProbabilities probabilities))
      {| files := files s;
         trace :=
           trace s
           ++ [ ESession (ONNX_OUTPUT_PATH root);
                ERun [(input_name, zeros_1 (length feature_columns))] ] |}.
Proof.
  unfold test_inference.
  erewrite bind_ok by (by apply import_onnxruntime_ok).
  erewrite bind_ok by (by eapply inference_session_ok). cbn [files trace].
  erewrite bind_ok by (unfold index; rewrite Hinputs; reflexivity).
  cbn zeta.
  erewrite bind_ok by reflexivity. cbn [files trace].
  by rewrite <- app_assoc.
Qed.

(** X13.  With a working runtime the test opens the written graph, feeds one
    all-zero float32 tensor of shape (1, number of feature columns) under
    the name of the graph's first input, and prints the first two results
    of the run; further results are ignored. *)
Theorem test_with_runtime prediction probabilities more :
  session_run ort session [(input_name, zeros_1 (length feature_columns))]
  = inr (prediction :: probabilities :: more) ->
  try_except (test_inference env root feature_columns) test_handler s
  = (inr tt,
     {| files := files s;
        trace :=
          trace s
          ++ [ ESession (ONNX_OUTPUT_PATH root);
               ERun [ (input_name,
                       {| t_elem := Float32;
                          t_shape := [1; length feature_columns];
                          t_data := replicate (length feature_columns)
                                      float_zero |}) ];
               EPrint MTestOk;
               EPrint (MPrediction prediction);
               EPrint (MProbabilities probabilities) ] |}).
Proof.
  intros Hrun. apply try_except_ok.
  rewrite test_inference_until_run.
  erewrite bind_ok by (unfold lift; rewrite Hrun; reflexivity).
  do 4 (erewrite bind_ok by reflexivity; cbn [files trace]).
  unfold print, emit. cbn [files trace]. by rewrite <- !app_assoc.
Qed.

(** X14.  When the run returns fewer than two results, the success line is
    printed first, then the results that exist, and then the [IndexError]
    is reported as a test inference error. *)
Theorem test_with_few_results results :
  session_run ort session [(input_name, zeros_1 (length feature_columns))]
  = inr results ->
  length results < 2 ->
  try_except (test_inference env root feature_columns) test_handler s
  = (inr tt,
     {| files := files s;
        trace :=
          trace s
          ++ [ ESession (ONNX_OUTPUT_PATH root);
               ERun [(input_name, zeros_1 (length feature_columns))];
               EPrint MTestOk ]
          ++ ((fun r => EPrint (MPrediction r)) <$> results)
          ++ [ EPrint (MTestError IndexError) ] |}).
Proof.
  intros Hrun Hlen.
  destruct results as [|r0 [|r1 more]]; [| |simpl in Hlen; lia].
  - assert (Hbody : test_inference env root feature_columns s
                    = (inl IndexError,
                       {| files := files s;
                          trace :=
                            trace s
                            ++ [ ESession (ONNX_OUTPUT_PATH root);
                                 ERun [(input_name,
                                        zeros_1 (length feature_columns))];
                                 EPrint MTestOk ] |})).
    { rewrite test_inference_until_run.
      erewrite bind_ok by (unfold lift; rewrite Hrun; reflexivity).
      erewrite bind_ok by reflexivity. cbn [files trace].
      erewrite bind_err by reflexivity. by rewrite <- !app_assoc. }
    rewrite (try_except_caught _ _ _ _ _ _ Hbody (test_handler_report _)).
    unfold print, emit. cbn [files trace report fmap list_fmap].
    by rewrite <- !app_assoc.
  - assert (Hbody : test_inference env root feature_columns s
                    = (inl IndexError,
                       {| files := files s;
                          trace :=
                            trace s
                            ++ [ ESession (ONNX_OUTPUT_PATH root);
                                 ERun [(input_name,
                                        zeros_1 (length feature_columns))];
                                 EPrint MTestOk;
                                 EPrint (MPrediction r0) ] |})).
    { rewrite test_inference_until_run.
      erewrite bind_ok by (unfold lift; rewrite Hrun; reflexivity).
      do 3 (erewrite bind_ok by reflexivity; cbn [files trace]).
      erewrite bind_err by reflexivity. by rewrite <- !app_assoc. }
    rewrite (try_except_caught _ _ _ _ _ _ Hbody (test_handler_report _)).
    unfold print, emit. cbn [files trace report fmap list_fmap].
    by rewrite <- !app_assoc.
Qed.

End TestInference.

Lemma test_with_runtime_witness :
  try_except
    (test_inference (Sample.env (Some Sample.runtime)) Sample.root
       Sample.columns)
    test_handler Sample.with_graph
  = (inr tt,
     {| files := files Sample.with_graph;
        trace :=
          trace Sample.with_graph
          ++ [ ESession (ONNX_OUTPUT_PATH Sample.root);
               ERun [ ("float_input",
                       {| t_elem := Float32;
                          t_shape := [1; length Sample.columns];
                          t_data := replicate (length Sample.columns)
                                      float_zero |}) ];
               EPrint MTestOk;
               EPrint (MPrediction (OrtLabels [0%Z]));
               EPrint (MProbabilities
                         (OrtTensor {| t_elem := Float32; t_shape := [1; 2];
                                       t_data := [float_zero; float_zero] |})) ] |}).
Proof.
  apply (test_with_runtime (Sample.env (Some Sample.runtime)) Sample.root
           Sample.columns Sample.with_graph Sample.runtime
           (FOnnx (Sample.graph Sample.boosting))
           {| get_inputs := ["float_input"];
              sess_graph := FOnnx (Sample.graph Sample.boosting) |}
           "float_input" []
           eq_refl eq_refl eq_refl eq_refl
           (OrtLabels [0%Z])
           (OrtTensor {| t_elem := Float32; t_shape := [1; 2];
                         t_data := [float_zero; float_zero] |})
           []).
  reflexivity.
Defined.

Lemma test_with_few_results_witness :
  try_except
    (test_inference (Sample.env (Some Sample.terse_runtime)) Sample.root
       Sample.columns)
    test_handler Sample.with_graph
  = (inr tt,
     {| files := files Sample.with_graph;
        trace :=
          trace Sample.with_graph
          ++ [ ESession (ONNX_OUTPUT_PATH Sample.root);
               ERun [("float_input", zeros_1 (length Sample.columns))];
               EPrint MTestOk ]
          ++ ((fun r => EPrint (MPrediction r)) <$> [OrtLabels [0%Z]])
          ++ [ EPrint (MTestError IndexError) ] |}).
Proof.
  apply (test_with_few_results (Sample.env (Some Sample.terse_runtime))
           Sample.root Sample.columns Sample.with_graph Sample.terse_runtime
           (FOnnx (Sample.graph Sample.boosting))
           {| get_inputs := ["float_input"];
              sess_graph := FOnnx (Sample.graph Sample.boosting) |}
           "float_input" []
           eq_refl eq_refl eq_refl eq_refl
           [OrtLabels [0%Z]]).
  - reflexivity.
  - simpl. lia.
Defined.

(** * Further properties of the paths and of repeated runs *)

(** The directory prefix that [os.path.join] puts before a relative name. *)
Lemma paths_share_prefix root :
  exists p,
    candidate_paths root
    = [ p +:+ "accessibility_model_geographic.joblib";
        p +:+ "accessibility_model_worldwide.joblib";
        p +:+ "accessibility_model_3class_best_overall.joblib" ] /\
    ONNX_OUTPUT_PATH root = p +:+ "public/models/accessibility_model.onnx" /\
    CONFIG_OUTPUT_PATH root
    = p +:+ "app/api/accessibility-predict/model_config.json".
Proof.
  destruct (join_relative root) as [p Hp]. exists p.
  unfold candidate_paths, ONNX_OUTPUT_PATH, CONFIG_OUTPUT_PATH, Path.join_all.
  cbn [fold_left]. rewrite !Hp by done.
  split; [done|].
  split; repeat (rewrite join_under by done; simpl append); done.
Qed.

Lemma candidates_not_outputs root q :
  q ∈ candidate_paths root ->
  q <> ONNX_OUTPUT_PATH root /\ q <> CONFIG_OUTPUT_PATH root.
Proof.
  destruct (paths_share_prefix root) as (p & -> & -> & ->).
  intros Hq. repeat apply elem_of_cons in Hq as [-> | Hq];
    [| | | by apply elem_of_nil in Hq];
    split; intros H%StrFacts.app_inv_head; discriminate H.
Qed.

Lemma MODEL_PATH_candidate root fs : MODEL_PATH root fs ∈ candidate_paths root.
Proof.
  unfold MODEL_PATH, candidate_paths.
  repeat match goal with
         | |- context [if negb ?b then _ else _] => destruct b; cbn [negb]
         end;
    apply list_elem_of_In; simpl; tauto.
Qed.

Lemma path_exists_insert_ne fs q c p :
  p <> q -> path_exists (<[q := c]> fs) p = path_exists fs p.
Proof. intros H. unfold path_exists. by rewrite lookup_insert_ne. Qed.

(** Writing an output file does not change the choice of the artifact. *)
Lemma MODEL_PATH_insert root fs q c :
  q ∉ candidate_paths root ->
  MODEL_PATH root (<[q := c]> fs) = MODEL_PATH root fs.
Proof.
  intros Hq.
  assert (Hne : forall p, p ∈ candidate_paths root ->
                          path_exists (<[q := c]> fs) p = path_exists fs p).
  { intros p Hp. apply path_exists_insert_ne. intros ->. by apply Hq. }
  unfold MODEL_PATH. unfold candidate_paths in Hne.
  rewrite (Hne (Path.join root "accessibility_model_geographic.joblib"))
    by (apply list_elem_of_In; simpl; tauto).
  destruct (path_exists fs
              (Path.join root "accessibility_model_geographic.joblib"))
    eqn:H1; cbn [negb].
  - rewrite (Hne (Path.join root "accessibility_model_geographic.joblib"))
      by (apply list_elem_of_In; simpl; tauto).
    by rewrite H1.
  - by rewrite (Hne (Path.join root "accessibility_model_worldwide.joblib"))
      by (apply list_elem_of_In; simpl; tauto).
Qed.

Lemma outputs_not_candidates root :
  (ONNX_OUTPUT_PATH root ∉ candidate_paths root) /\
  (CONFIG_OUTPUT_PATH root ∉ candidate_paths root).
Proof.
  split; intros H%candidates_not_outputs; tauto.
Qed.

(** X15.  Running the script again on the files that a complete run has
    left completes as well and leaves the files as they are: the same
    artifact is chosen and both outputs are rewritten with the same
    content. *)
Theorem rerun_keeps_files env root s md class_mapping g fi :
  Ready env root s md class_mapping g ->
  importances_of (md_model md) (md_feature_columns md) = inr fi ->
  (script env root (script env root s).2).1 = inr tt /\
  files (script env root (script env root s).2).2
  = files (script env root s).2.
Proof.
  intros Hready Himp.
  destruct (script_completes env root s md class_mapping g fi Hready Himp)
    as (tr & -> & _).
  cbn [snd].
  set (s1 := {| files := _; trace := _ |}).
  destruct (outputs_not_candidates root) as [Ho Hc].
  destruct (candidates_not_outputs root _ (MODEL_PATH_candidate root (files s)))
    as [Hmo Hmc].
  assert (Hready1 : Ready env root s1 md class_mapping g).
  { destruct Hready as [Hart Hmap Hconv Hd1 Hd2 Hf1 Hf2 Hwr1 Hwr2].
    split; try done. subst s1. cbn [files].
    rewrite !MODEL_PATH_insert by done.
    by rewrite !lookup_insert_ne by done. }
  destruct (script_completes env root s1 md class_mapping g fi Hready1 Himp)
    as (tr1 & -> & _).
  split; [done|]. cbn [snd files]. subst s1. cbn [files].
  apply map_eq. intros k. rewrite !lookup_insert.
  repeat case_decide; done.
Qed.

Lemma rerun_keeps_files_witness :
  (script (Sample.env None) Sample.root
     (script (Sample.env None) Sample.root
        (Sample.start Sample.plain_artifact)).2).1 = inr tt /\
  files (script (Sample.env None) Sample.root
           (script (Sample.env None) Sample.root
              (Sample.start Sample.plain_artifact)).2).2
  = files (script (Sample.env None) Sample.root
             (Sample.start Sample.plain_artifact)).2.
Proof.
  apply (rerun_keeps_files (Sample.env None) Sample.root
           (Sample.start Sample.plain_artifact) Sample.plain_artifact
           [(0%Z, "not_accessible"); (1%Z, "accessible")]
           (Sample.graph Sample.boosting)
           (heuristic_importances Sample.columns)).
  - apply sample_ready. reflexivity.
  - reflexivity.
Defined.

(** ** The output directories *)

Section OutputDirectories.
Import Str StrFacts.

Lemma join_relative_prefix a c b :
  c <> "/"%char -> Path.join a (String c b) = dir_prefix a +:+ String c b.
Proof.
  intros Hc. unfold Path.join, dir_prefix. simpl.
  rewrite decide_False by done.
  destruct (bool_decide (a = "") || Path.ends_with_slash a); [done|].
  by rewrite app_assoc.
Qed.

Lemma contains_app_r sub p s :
  contains sub s = true -> contains sub (p +:+ s) = true.
Proof.
  rewrite !contains_spec. intros (pre & post & ->).
  exists (p +:+ pre), post. by rewrite app_assoc.
Qed.

Lemma head_app p s :
  contains "/" s = true -> Path.head (p +:+ s) = p +:+ Path.head s.
Proof.
  intros Hs. induction p as [|a p IH]; [done|].
  change (String a p +:+ s) with (String a (p +:+ s)).
  cbn [Path.head]. by rewrite (contains_app_r "/" p s Hs), IH.
Qed.

Lemma all_slashes_app p s :
  Path.all_slashes s = false -> Path.all_slashes (p +:+ s) = false.
Proof.
  intros Hs. induction p as [|a p IH]; [done|].
  change (String a p +:+ s) with (String a (p +:+ s)).
  cbn [Path.all_slashes]. rewrite IH. by destruct (bool_decide _).
Qed.

Lemma rstrip_slash_app p s c r :
  Path.rstrip_slash s = String c r ->
  Path.rstrip_slash (p +:+ s) = p +:+ String c r.
Proof.
  intros Hs. induction p as [|a p IH]; [done|].
  change (String a p +:+ s) with (String a (p +:+ s)).
  cbn [Path.rstrip_slash]. rewrite IH. by destruct p.
Qed.

Lemma dirname_under p dir file c r :
  contains "/" file = false ->
  Path.all_slashes (dir +:+ "/") = false ->
  Path.rstrip_slash (dir +:+ "/") = String c r ->
  Path.head (dir +:+ "/" +:+ file) = dir +:+ "/" ->
  Path.dirname (p +:+ (dir +:+ "/" +:+ file)) = p +:+ String c r.
Proof.
  intros Hfile Hall Hstrip Hhead. unfold Path.dirname.
  rewrite head_app, Hhead.
  - rewrite (all_slashes_app p _ Hall).
    rewrite bool_decide_eq_false_2.
    + by apply rstrip_slash_app.
    + destruct p; [by destruct dir | done].
  - apply contains_spec. exists dir, file. done.
Qed.
End OutputDirectories.

(** X16.  The two output files lie under the project root, and the
    directories that the run creates are their parent directories:
    [public/models] and [app/api/accessibility-predict]. *)
Theorem output_directories root :
  ONNX_OUTPUT_PATH root
  = dir_prefix root +:+ "public/models/accessibility_model.onnx" /\
  Path.dirname (ONNX_OUTPUT_PATH root) = dir_prefix root +:+ "public/models" /\
  CONFIG_OUTPUT_PATH root
  = dir_prefix root +:+ "app/api/accessibility-predict/model_config.json" /\
  Path.dirname (CONFIG_OUTPUT_PATH root)
  = dir_prefix root +:+ "app/api/accessibility-predict".
Proof.
  assert (Ho : ONNX_OUTPUT_PATH root
               = dir_prefix root +:+ "public/models/accessibility_model.onnx").
  { unfold ONNX_OUTPUT_PATH, Path.join_all. cbn [fold_left].
    rewrite (join_relative_prefix root) by done.
    generalize (dir_prefix root) as p.
    intros p. repeat (rewrite join_under by done; simpl append). done. }
  assert (Hc : CONFIG_OUTPUT_PATH root
               = dir_prefix root
                 +:+ "app/api/accessibility-predict/model_config.json").
  { unfold CONFIG_OUTPUT_PATH, Path.join_all. cbn [fold_left].
    rewrite (join_relative_prefix root) by done.
    generalize (dir_prefix root) as p.
    intros p. repeat (rewrite join_under by done; simpl append). done. }
  rewrite Ho, Hc. repeat split.
  - by apply (dirname_under (dir_prefix root) "public/models"
                "accessibility_model.onnx").
  - by apply (dirname_under (dir_prefix root) "app/api/accessibility-predict"
                "model_config.json").
Qed.

(** * Further properties of the configuration *)

(** X17.  An artifact without class mapping gets the mapping
    [{0: "not_accessible", 1: "accessible"}]; when such an artifact says that
    it has 3 classes, the third label is the placeholder [class_2]. *)
Theorem default_mapping_used env root s md class_mapping g fi :
  Ready env root s md class_mapping g ->
  importances_of (md_model md) (md_feature_columns md) = inr fi ->
  md_class_mapping md = None ->
  exists cfg s',
    script env root s = (inr tt, s') /\
    files s' !! CONFIG_OUTPUT_PATH root = Some (FJson cfg) /\
    cfg_class_mapping cfg = [(0%Z, "not_accessible"); (1%Z, "accessible")] /\
    (md_n_classes md = Some 3%Z ->
     cfg_labels cfg = ["not_accessible"; "accessible"; "class_2"]) /\
    (md_n_classes md = None ->
     cfg_n_classes cfg = 2%Z /\
     cfg_labels cfg = ["not_accessible"; "accessible"]).
Proof.
  intros Hready Himp Hnone.
  pose proof (ready_mapping _ _ _ _ _ _ Hready) as Hmap.
  rewrite Hnone in Hmap. injection Hmap as <-.
  destruct (script_completes env root s md _ g fi Hready Himp)
    as (tr & Hrun & _).
  eexists _, _. split; [exact Hrun|]. split; [apply lookup_insert_eq|].
  unfold written_config, make_labels; simpl.
  split; [done|]. split; by intros ->.
Qed.

Lemma default_mapping_used_witness :
  exists cfg s',
    script (Sample.env None) Sample.root
      (Sample.start (Sample.artifact Sample.boosting (Some 3%Z) None))
    = (inr tt, s') /\
    files s' !! CONFIG_OUTPUT_PATH Sample.root = Some (FJson cfg) /\
    cfg_class_mapping cfg = [(0%Z, "not_accessible"); (1%Z, "accessible")] /\
    (Some 3%Z = Some 3%Z ->
     cfg_labels cfg = ["not_accessible"; "accessible"; "class_2"]) /\
    (Some 3%Z = None ->
     cfg_n_classes cfg = 2%Z /\
     cfg_labels cfg = ["not_accessible"; "accessible"]).
Proof.
  apply (default_mapping_used (Sample.env None) Sample.root
           (Sample.start (Sample.artifact Sample.boosting (Some 3%Z) None))
           (Sample.artifact Sample.boosting (Some 3%Z) None)
           [(0%Z, "not_accessible"); (1%Z, "accessible")]
           (Sample.graph Sample.boosting)
           (heuristic_importances Sample.columns)).
  - apply sample_ready. reflexivity.
  - reflexivity.
  - reflexivity.
Defined.

(** X18.  The configuration carries the artifact's name, useful features and
    metrics unchanged and the class count (2 when the artifact has none);
    its input name is the name of the input declared to the converter, its
    output names are fixed, and its encoding description is the one of the
    feature columns. *)
Theorem config_metadata env root s md class_mapping g fi :
  Ready env root s md class_mapping g ->
  importances_of (md_model md) (md_feature_columns md) = inr fi ->
  exists cfg s',
    script env root s = (inr tt, s') /\
    files s' !! CONFIG_OUTPUT_PATH root = Some (FJson cfg) /\
    cfg_model_name cfg = md_model_name md /\
    cfg_useful_features cfg = md_useful_features md /\
    cfg_metrics cfg = md_metrics md /\
    cfg_n_classes cfg = default 2%Z (md_n_classes md) /\
    initial_types <$> (convert_calls (trace s')).*2
    = (initial_types <$> (convert_calls (trace s)).*2)
      ++ [[(cfg_input_name cfg,
            FloatTensorType [None; Some (length (cfg_feature_columns cfg))])]] /\
    cfg_output_names cfg = ["output_label"; "output_probability"] /\
    cfg_encoding_info cfg
    = generate_encoding_info [] (md_feature_columns md) /\
    cfg_feature_importances cfg = fi.
Proof.
  intros Hready Himp.
  destruct (script_completes env root s md class_mapping g fi Hready Himp)
    as (tr & Hrun & Hcalls & _).
  eexists _, _. split; [exact Hrun|]. split; [apply lookup_insert_eq|].
  cbn [trace]. unfold convert_calls in *.
  rewrite omap_app, Hcalls, !fmap_app. done.
Qed.

Lemma config_metadata_witness :
  exists cfg s',
    script (Sample.env None) Sample.root (Sample.start Sample.plain_artifact)
    = (inr tt, s') /\
    files s' !! CONFIG_OUTPUT_PATH Sample.root = Some (FJson cfg) /\
    cfg_model_name cfg = "HistGradientBoostingClassifier" /\
    cfg_useful_features cfg = ["ramp"; "stairs"] /\
    cfg_metrics cfg = [("f1", Sample.float_0_2)] /\
    cfg_n_classes cfg = 2%Z /\
    initial_types <$> (convert_calls (trace s')).*2
    = (initial_types
         <$> (convert_calls (trace (Sample.start Sample.plain_artifact))).*2)
      ++ [[(cfg_input_name cfg,
            FloatTensorType [None; Some (length (cfg_feature_columns cfg))])]] /\
    cfg_output_names cfg = ["output_label"; "output_probability"] /\
    cfg_encoding_info cfg = generate_encoding_info [] Sample.columns /\
    cfg_feature_importances cfg = heuristic_importances Sample.columns.
Proof.
  apply (config_metadata (Sample.env None) Sample.root
           (Sample.start Sample.plain_artifact) Sample.plain_artifact
           [(0%Z, "not_accessible"); (1%Z, "accessible")]
           (Sample.graph Sample.boosting)
           (heuristic_importances Sample.columns)).
  - apply sample_ready. reflexivity.
  - reflexivity.
Defined.

(** X19.  In a complete run the converter is called once, each output file
    is written once, the graph before the configuration, and the last line
    printed is the closing one. *)
Theorem complete_run_events env root s md class_mapping g fi :
  Ready env root s md class_mapping g ->
  importances_of (md_model md) (md_feature_columns md) = inr fi ->
  exists tr,
    trace (script env root s).2 = trace s ++ tr /\
    convert_calls tr
    = [(md_model md, conversion_args (md_model md) (md_feature_columns md))] /\
    writes tr = [ONNX_OUTPUT_PATH root; CONFIG_OUTPUT_PATH root] /\
    last tr = Some (EPrint MDone).
Proof.
  intros Hready Himp.
  destruct (script_completes env root s md class_mapping g fi Hready Himp)
    as (tr & -> & Hrest).
  by exists tr.
Qed.

Lemma complete_run_events_witness :
  exists tr,
    trace (script (Sample.env None) Sample.root
             (Sample.start Sample.plain_artifact)).2
    = trace (Sample.start Sample.plain_artifact) ++ tr /\
    convert_calls tr
    = [(Sample.boosting, conversion_args Sample.boosting Sample.columns)] /\
    writes tr
    = [ONNX_OUTPUT_PATH Sample.root; CONFIG_OUTPUT_PATH Sample.root] /\
    last tr = Some (EPrint MDone).
Proof.
  apply (complete_run_events (Sample.env None) Sample.root
           (Sample.start Sample.plain_artifact) Sample.plain_artifact
           [(0%Z, "not_accessible"); (1%Z, "accessible")]
           (Sample.graph Sample.boosting)
           (heuristic_importances Sample.columns)).
  - apply sample_ready. reflexivity.
  - reflexivity.
Defined.

(** * Further properties of the fallback importances *)

(** X20.  The fallback map holds no other values than 0.15, 0.12, 0.08 and
    0.05; every column whose lower-cased name starts with [has_] has an
    entry; and two columns whose names differ in letter case only have the
    same entry. *)
Theorem heuristic_map_shape feature_columns :
  (forall name v,
     dict_get name (heuristic_importances feature_columns) = Some v ->
     v ∈ [float_0_15; float_0_12; float_0_08; float_0_05]) /\
  (forall col,
     col ∈ feature_columns ->
     (exists rest, Str.lower col = "has_" +:+ rest) ->
     is_Some (dict_get col (heuristic_importances feature_columns))) /\
  (forall col col',
     col ∈ feature_columns -> col' ∈ feature_columns ->
     Str.lower col = Str.lower col' ->
     dict_get col (heuristic_importances feature_columns)
     = dict_get col' (heuristic_importances feature_columns)).
Proof.
  destruct (heuristic_importances_spec feature_columns) as [Hin Hrule].
  split; [|split].
  - intros name v Hv. pose proof (Hrule name (Hin _ _ Hv)) as Hr.
    rewrite Hv in Hr. inversion Hr; apply list_elem_of_In; simpl; tauto.
  - intros col Hcol Hp. pose proof (Hrule col Hcol) as Hr.
    inversion Hr; first [contradiction | by eexists].
  - intros col col' Hc Hc' Hl. unfold heuristic_importances.
    rewrite !fold_heuristic_get.
    assert (He : heuristic_importance col = heuristic_importance col')
      by (unfold heuristic_importance; by rewrite Hl).
    rewrite He.
    destruct (float_gt (heuristic_importance col') float_0_01) eqn:Hgt.
    + by rewrite !decide_True.
    + rewrite !decide_False; [done | by intros [_ [=]] | by intros [_ [=]]].
Qed.

(** * Further properties of the order of the writes *)

Lemma makedirs_failure env p e s :
  makedirs_error env p = Some e ->
  makedirs env p s
  = (inl e, {| files := files s; trace := trace s ++ [EMakedirs p] |}).
Proof.
  intros H. unfold makedirs. erewrite bind_ok by reflexivity. by rewrite H.
Qed.

(** X22.  Both output directories are created before the first write: when
    either of them cannot be created, the run ends with that error and
    neither the graph nor the configuration is written. *)
Theorem directory_failure env root s md class_mapping g e :
  files s !! MODEL_PATH root (files s) = Some (FPickle md) ->
  int_keys (default default_class_mapping (md_class_mapping md)) []
  = inr class_mapping ->
  convert_sklearn env (md_model md)
    (conversion_args (md_model md) (md_feature_columns md)) = inr g ->
  makedirs_error env (Path.dirname (ONNX_OUTPUT_PATH root)) = Some e \/
  (makedirs_error env (Path.dirname (ONNX_OUTPUT_PATH root)) = None /\
   makedirs_error env (Path.dirname (CONFIG_OUTPUT_PATH root)) = Some e) ->
  exists tr,
    script env root s
    = (inl e, {| files := files s; trace := trace s ++ tr |}) /\
    writes tr = [].
Proof.
  intros Hart Hmap Hconv Hdirs. unfold script, main.
  do 2 (erewrite bind_ok by reflexivity; cbn [files trace]).
  erewrite bind_ok by (by apply joblib_load_ok). cbn [files trace].
  cbn zeta.
  erewrite bind_ok by (unfold lift; by rewrite Hmap). cbn [files trace].
  do 6 (erewrite bind_ok by reflexivity; cbn [files trace]).
  erewrite bind_ok by (by apply call_convert_sklearn_eq). cbn [files trace].
  destruct Hdirs as [H1 | [H1 H2]].
  - erewrite bind_err by (by apply makedirs_failure). cbn [files trace].
    rewrite <- !app_assoc. eexists. split; [reflexivity | done].
  - erewrite bind_ok by (by apply makedirs_ok). cbn [files trace].
    erewrite bind_err by (by apply makedirs_failure). cbn [files trace].
    rewrite <- !app_assoc. eexists. split; [reflexivity | done].
Qed.

Lemma directory_failure_witness :
  exists tr,
    script Sample.read_only_app Sample.root
      (Sample.start Sample.plain_artifact)
    = (inl (OSError "/srv/app/app/api/accessibility-predict"),
       {| files := files (Sample.start Sample.plain_artifact);
          trace := trace (Sample.start Sample.plain_artifact) ++ tr |}) /\
    writes tr = [].
Proof.
  apply (directory_failure Sample.read_only_app Sample.root
           (Sample.start Sample.plain_artifact) Sample.plain_artifact
           [(0%Z, "not_accessible"); (1%Z, "accessible")]
           (Sample.graph Sample.boosting)
           (OSError "/srv/app/app/api/accessibility-predict")).
  - reflexivity.
  - reflexivity.
  - reflexivity.
  - right. split; reflexivity.
Defined.

(** * Further properties of interrupted writes *)

(** X23.  When writing the graph fails after the file was opened, the run
    ends with that exception, the graph file holds the bytes that had
    reached it instead of a graph, and the configuration is not written. *)
Theorem graph_write_interrupted env root s md class_mapping g e partial :
  files s !! MODEL_PATH root (files s) = Some (FPickle md) ->
  int_keys (default default_class_mapping (md_class_mapping md)) []
  = inr class_mapping ->
  convert_sklearn env (md_model md)
    (conversion_args (md_model md) (md_feature_columns md)) = inr g ->
  makedirs_error env (Path.dirname (ONNX_OUTPUT_PATH root)) = None ->
  makedirs_error env (Path.dirname (CONFIG_OUTPUT_PATH root)) = None ->
  open_error env (ONNX_OUTPUT_PATH root) = None ->
  write_error env (ONNX_OUTPUT_PATH root) = Some (e, partial) ->
  exists tr,
    script env root s
    = (inl e,
       {| files := <[ONNX_OUTPUT_PATH root := FRaw partial]> (files s);
          trace := trace s ++ tr |}) /\
    writes tr = [] /\
    last tr = Some (EWriteFailed (ONNX_OUTPUT_PATH root) partial).
Proof.
  intros Hart Hmap Hconv Hd1 Hd2 Hf He. unfold script, main.
  do 2 (erewrite bind_ok by reflexivity; cbn [files trace]).
  erewrite bind_ok by (by apply joblib_load_ok). cbn [files trace].
  cbn zeta.
  erewrite bind_ok by (unfold lift; by rewrite Hmap). cbn [files trace].
  do 6 (erewrite bind_ok by reflexivity; cbn [files trace]).
  erewrite bind_ok by (by apply call_convert_sklearn_eq). cbn [files trace].
  erewrite bind_ok by (by apply makedirs_ok). cbn [files trace].
  erewrite bind_ok by (by apply makedirs_ok). cbn [files trace].
  erewrite bind_err by (by apply write_file_interrupted). cbn [files trace].
  rewrite <- !app_assoc. eexists. split; [reflexivity|]. split; [done|].
  by rewrite !app_assoc, last_snoc.
Qed.

Lemma graph_write_interrupted_witness :
  exists tr,
    script
      (Sample.full_disk "/srv/app/public/models/accessibility_model.onnx" "")
      Sample.root (Sample.start Sample.plain_artifact)
    = (inl (OSError "/srv/app/public/models/accessibility_model.onnx"),
       {| files :=
            <[ONNX_OUTPUT_PATH Sample.root := FRaw ""]>
              (files (Sample.start Sample.plain_artifact));
          trace := trace (Sample.start Sample.plain_artifact) ++ tr |}) /\
    writes tr = [] /\
    last tr = Some (EWriteFailed (ONNX_OUTPUT_PATH Sample.root) "").
Proof.
  apply (graph_write_interrupted
           (Sample.full_disk
              "/srv/app/public/models/accessibility_model.onnx" "")
           Sample.root (Sample.start Sample.plain_artifact)
           Sample.plain_artifact
           [(0%Z, "not_accessible"); (1%Z, "accessible")]
           (Sample.graph Sample.boosting)).
  - reflexivity.
  - reflexivity.
  - reflexivity.
  - reflexivity.
  - reflexivity.
  - reflexivity.
  - reflexivity.
Defined.

(** X24.  When writing the configuration fails after the file was opened,
    the run ends with that exception before the test inference: the graph
    is in place, and the configuration file holds the bytes that had
    reached it, whatever it held before. *)
Theorem config_write_interrupted env root s md class_mapping g fi e partial :
  files s !! MODEL_PATH root (files s) = Some (FPickle md) ->
  int_keys (default default_class_mapping (md_class_mapping md)) []
  = inr class_mapping ->
  convert_sklearn env (md_model md)
    (conversion_args (md_model md) (md_feature_columns md)) = inr g ->
  makedirs_error env (Path.dirname (ONNX_OUTPUT_PATH root)) = None ->
  makedirs_error env (Path.dirname (CONFIG_OUTPUT_PATH root)) = None ->
  open_error env (ONNX_OUTPUT_PATH root) = None ->
  write_error env (ONNX_OUTPUT_PATH root) = None ->
  importances_of (md_model md) (md_feature_columns md) = inr fi ->
  open_error env (CONFIG_OUTPUT_PATH root) = None ->
  write_error env (CONFIG_OUTPUT_PATH root) = Some (e, partial) ->
  exists tr,
    script env root s
    = (inl e,
       {| files :=
            <[CONFIG_OUTPUT_PATH root := FRaw partial]>
              (<[ONNX_OUTPUT_PATH root := FOnnx g]> (files s));
          trace := trace s ++ tr |}) /\
    writes tr = [ONNX_OUTPUT_PATH root] /\
    last tr = Some (EWriteFailed (CONFIG_OUTPUT_PATH root) partial).
Proof.
  intros Hart Hmap Hconv Hd1 Hd2 Hf1 Hw1 Himp Hf2 He. unfold script, main.
  do 2 (erewrite bind_ok by reflexivity; cbn [files trace]).
  erewrite bind_ok by (by apply joblib_load_ok). cbn [files trace].
  cbn zeta.
  erewrite bind_ok by (unfold lift; by rewrite Hmap). cbn [files trace].
  do 6 (erewrite bind_ok by reflexivity; cbn [files trace]).
  erewrite bind_ok by (by apply call_convert_sklearn_eq). cbn [files trace].
  erewrite bind_ok by (by apply makedirs_ok). cbn [files trace].
  erewrite bind_ok by (by apply makedirs_ok). cbn [files trace].
  erewrite bind_ok by (by apply write_file_ok). cbn [files trace].
  erewrite bind_ok by reflexivity; cbn [files trace].
  match goal with
  | |- context [ (extract_importances _ _ ≫= _) ?st ] =>
      destruct (extract_importances_ok (md_model md) (md_feature_columns md)
                  st fi Himp) as (tr1 & Hex & [_ Hq]%test_events_quiet)
  end.
  erewrite bind_ok by exact Hex. cbn [files trace].
  erewrite bind_err by (by apply write_file_interrupted). cbn [files trace].
  rewrite <- !app_assoc. eexists. split; [reflexivity|]. split.
  - unfold writes in *. by rewrite !omap_app, Hq.
  - by rewrite !app_assoc, last_snoc.
Qed.

Lemma config_write_interrupted_witness :
  exists tr,
    script
      (Sample.full_disk
         "/srv/app/app/api/accessibility-predict/model_config.json" "{")
      Sample.root (Sample.start Sample.plain_artifact)
    = (inl (OSError
              "/srv/app/app/api/accessibility-predict/model_config.json"),
       {| files :=
            <[CONFIG_OUTPUT_PATH Sample.root := FRaw "{"]>
              (<[ONNX_OUTPUT_PATH Sample.root
                 := FOnnx (Sample.graph Sample.boosting)]>
                 (files (Sample.start Sample.plain_artifact)));
          trace := trace (Sample.start Sample.plain_artifact) ++ tr |}) /\
    writes tr = [ONNX_OUTPUT_PATH Sample.root] /\
    last tr = Some (EWriteFailed (CONFIG_OUTPUT_PATH Sample.root) "{").
Proof.
  apply (config_write_interrupted
           (Sample.full_disk
              "/srv/app/app/api/accessibility-predict/model_config.json" "{")
           Sample.root (Sample.start Sample.plain_artifact)
           Sample.plain_artifact
           [(0%Z, "not_accessible"); (1%Z, "accessible")]
           (Sample.graph Sample.boosting)
           [("has_ramp", float_0_15); ("stairs_present", float_0_12)]).
  - reflexivity.
  - reflexivity.
  - reflexivity.
  - reflexivity.
  - reflexivity.
  - reflexivity.
  - reflexivity.
  - reflexivity.
  - reflexivity.
  - reflexivity.
Defined.
